(** * Vector router: a shallow embedding of [routers/vector_router.py]

    The router composes three collaborators (the Notion client, the vector
    store and the RAG service) behind FastAPI handlers.  The collaborators
    are not part of the module; they are taken as a record of fallible,
    stateful operations over an abstract [World].  Every handler is a
    computation in a small state-and-exception monad that also records a
    chronological trace of collaborator calls, log records and framework
    events, so that statements such as "called exactly once" or "no store
    call carries [force_update = true]" can be read off the trace. *)

From Stdlib Require Import String Ascii List ZArith Lia Bool QArith.
From Stdlib Require Import DecimalString.
Import ListNotations.

Local Open Scope string_scope.
Local Open Scope Z_scope.

(** ** Python values used by the router *)

(** Exceptions.  [Exception] stands for any exception raised by a
    collaborator, carried with the text [str(e)] would give;
    [HTTPException] is the framework's exception raised by the handlers. *)
Inductive Exn : Type :=
| Exception (message : string)
| HTTPException (status_code : Z) (detail : string).

Definition str_of_int (z : Z) : string := NilZero.string_of_int (Z.to_int z).

Definition str (e : Exn) : string :=
  match e with
  | Exception message => message
  | HTTPException status_code detail => str_of_int status_code ++ ": " ++ detail
  end.

(** [d[key]] on a dict without [key]: [str(KeyError(key))] is the quoted key. *)
Definition KeyError (key : string) : Exn := Exception ("'" ++ key ++ "'").

(** Outcome of a computation: a value, a raised exception, or a loop that
    was cut off by the fuel of the model (the [while] loop of the sync). *)
Inductive Res (A : Type) : Type :=
| Val (a : A)
| Raise (e : Exn)
| OutOfFuel.
Arguments Val {A} a.
Arguments Raise {A} e.
Arguments OutOfFuel {A}.

Definition Block := string.
Definition Content := string.

(** A page of the document source.  [content] is the key the sync adds. *)
Record Page : Type := mkPage {
  id : string;
  properties : string;
  content : option (list Content)
}.

Definition set_content (page : Page) (pageContent : list Content) : Page :=
  {| id := id page; properties := properties page; content := Some pageContent |}.

(** Keyword arguments of [client.databases.query]. *)
Record QueryParams : Type := mkQuery {
  database_id : string;
  page_size : Z;
  start_cursor : option string
}.

(** Dicts returned by the collaborators; [None] is an absent key. *)
Record Response : Type := mkResponse {
  results : option (list Page);
  has_more : option bool;
  next_cursor : option string
}.

Record BlocksResponse : Type := mkBlocks {
  block_results : option (list Block)
}.

Record StoreResult : Type := mkStoreResult {
  status : option string;
  chunks_stored : option Z
}.

Record Stats : Type := mkStats {
  stats_total_chunks : option Z;
  stats_unique_pages : option Z
}.

Definition Embedding := list Q.

Record Source : Type := mkSource {
  page_url : option string
}.

Record Answer : Type := mkAnswer {
  answer : option string;
  context_used : option bool;
  sources : option (list Source);
  model_used : option string
}.

(** class SyncRequest(BaseModel) *)
Record SyncRequest : Type := mkSyncRequest {
  force_update : bool;
  page_limit : option Z
}.

Definition SyncRequest_default : SyncRequest :=
  {| force_update := true; page_limit := Some 100 |}.

(** One entry of the framework's background-task queue: the positional
    arguments given to [_sync_database_background]. *)
Record Task : Type := mkTask {
  task_database_id : string;
  task_force_update : bool;
  task_page_limit : option Z
}.

(** ** Responses of the handlers *)

Record SyncAck : Type := mkSyncAck {
  ack_status : string;
  ack_message : string;
  ack_force_update : bool
}.

Record HealthPayload : Type := mkHealth {
  health_status : string;
  health_vector_db : string;
  embedding_model : string;
  embedding_dimension : Z;
  google_ai_model : string;
  health_total_chunks : Z;
  health_unique_pages : Z
}.

(** The chat response; [source_urls = None] is a response without the key. *)
Record ChatResponse : Type := mkChat {
  chat_question : string;
  chat_answer : string;
  chat_context_used : bool;
  sources_count : Z;
  model : option string;
  source_urls : option (list string)
}.

(** The counters of one background run. *)
Record SyncResults : Type := mkSyncResults {
  success : Z;
  skipped : Z;
  errors : Z;
  total_chunks : Z
}.

(** ** Trace *)

Inductive Level : Type := INFO | ERROR.

Inductive Event : Type :=
| Log (level : Level) (msg : string)
| EnsureVectorIndex (r : Exn + unit)
| GetStats (r : Exn + Stats)
| GenerateEmbedding (text : string) (r : Exn + Embedding)
| DatabasesQuery (query_params : QueryParams) (r : Exn + Response)
| BlocksChildrenList (block_id : string) (r : Exn + BlocksResponse)
| StoreNotionPage (page_id : string) (page_data : Page)
                  (database : string) (force : bool) (r : Exn + StoreResult)
| AnswerQuestion (question : string) (r : Exn + Answer)
| AddTask (task : Task) (r : Exn + unit)
| Yield.

(** ** Collaborators *)

Record Services (World : Type) : Type := mkServices {
  ensure_vector_index : World -> (Exn + unit) * World;
  get_stats : World -> (Exn + Stats) * World;
  generate_embedding : string -> World -> (Exn + Embedding) * World;
  embedding_model_name : string;
  model_name : string;
  databases_query : QueryParams -> World -> (Exn + Response) * World;
  blocks_children_list : string -> World -> (Exn + BlocksResponse) * World;
  extract_block_content : Block -> Exn + Content;
  store_notion_page :
    string -> Page -> string -> bool -> World -> (Exn + StoreResult) * World;
  answer_question : string -> World -> (Exn + Answer) * World;
  add_task : Task -> World -> (Exn + unit) * World
}.
Arguments ensure_vector_index {World} _ _.
Arguments get_stats {World} _ _.
Arguments generate_embedding {World} _ _ _.
Arguments embedding_model_name {World} _.
Arguments model_name {World} _.
Arguments databases_query {World} _ _ _.
Arguments blocks_children_list {World} _ _ _.
Arguments extract_block_content {World} _ _.
Arguments store_notion_page {World} _ _ _ _ _ _.
Arguments answer_question {World} _ _ _.
Arguments add_task {World} _ _ _.

(** ** The monad of the handlers *)

Record State (World : Type) : Type := mkState {
  world : World;
  trace : list Event
}.
Arguments mkState {World} _ _.
Arguments world {World} _.
Arguments trace {World} _.

Definition M (World A : Type) : Type := State World -> Res A * State World.

Definition ret {World A} (a : A) : M World A := fun st => (Val a, st).

Definition bind {World A B} (m : M World A) (k : A -> M World B) : M World B :=
  fun st =>
    match m st with
    | (Val a, st') => k a st'
    | (Raise e, st') => (Raise e, st')
    | (OutOfFuel, st') => (OutOfFuel, st')
    end.

Definition raise {World A} (e : Exn) : M World A := fun st => (Raise e, st).

(** [try: body  except Exception as e: handler e] *)
Definition try_except {World A} (body : M World A) (handler : Exn -> M World A)
  : M World A :=
  fun st =>
    match body st with
    | (Raise e, st') => handler e st'
    | other => other
    end.

Definition emit {World} (ev : Event) : M World unit :=
  fun st => (Val tt, mkState (world st) (trace st ++ [ev])).

(** A call to a collaborator: the world advances, the call and its reply
    are appended to the trace, an exception of the callee is raised here. *)
Definition invoke {World A} (mk : Exn + A -> Event)
    (op : World -> (Exn + A) * World) : M World A :=
  fun st =>
    let (r, w) := op (world st) in
    let st' := mkState w (trace st ++ [mk r]) in
    match r with
    | inl e => (Raise e, st')
    | inr a => (Val a, st')
    end.

(** A pure fallible step, such as an index into a dict. *)
Definition lift {World A} (r : Exn + A) : M World A :=
  fun st => match r with inl e => (Raise e, st) | inr a => (Val a, st) end.

Definition logger_info {World} (msg : string) : M World unit := emit (Log INFO msg).
Definition logger_error {World} (msg : string) : M World unit := emit (Log ERROR msg).

Declare Scope py_scope.
Delimit Scope py_scope with py.
Notation "x <- m ;; k" := (bind m (fun x => k))
  (at level 100, m at next level, right associativity) : py_scope.
Notation "m ;; k" := (bind m (fun _ => k))
  (at level 100, right associativity) : py_scope.
Local Open Scope py_scope.

(** [d[key]] and [d.get(key, default)] on an optional field. *)
Definition getitem {A} (key : string) (field : option A) : Exn + A :=
  match field with
  | Some v => inr v
  | None => inl (KeyError key)
  end.

Definition get_default {A} (field : option A) (default : A) : A :=
  match field with
  | Some v => v
  | None => default
  end.

Definition len {A} (l : list A) : Z := Z.of_nat (length l).

(** Truth value of an optional string: [None] and the empty string are false. *)
Definition truthy_str (s : option string) : bool :=
  match s with
  | Some (String _ _) => true
  | _ => false
  end.

(** Truth value of an optional int: [None] and [0] are false. *)
Definition truthy_int (n : option Z) : bool :=
  match n with
  | Some z => negb (z =? 0)
  | None => false
  end.

Section Router.

Context {World : Type}.
Variable svc : Services World.

Local Abbreviation Router := (M World).

(** ** lifespan *)

Definition lifespan : Router unit :=
  try_except
    (invoke EnsureVectorIndex (ensure_vector_index svc) ;;
     logger_info "Vector database initialized successfully")
    (fun e => logger_error ("Error initializing vector database: " ++ str e)) ;;
  emit Yield.

(** ** GET /vector/stats *)

Definition get_vector_db_stats : Router Stats :=
  try_except
    (stats <- invoke GetStats (get_stats svc) ;;
     ret stats)
    (fun e =>
       logger_error ("Error getting stats: " ++ str e) ;;
       raise (HTTPException 500 (str e))).

(** ** GET /vector/health *)

Definition vector_health_check : Router HealthPayload :=
  try_except
    (stats <- invoke GetStats (get_stats svc) ;;
     test_embedding <- invoke (GenerateEmbedding "test") (generate_embedding svc "test") ;;
     ret {| health_status := "healthy";
            health_vector_db := "connected";
            embedding_model := embedding_model_name svc;
            embedding_dimension := len test_embedding;
            google_ai_model := model_name svc;
            health_total_chunks := get_default (stats_total_chunks stats) 0;
            health_unique_pages := get_default (stats_unique_pages stats) 0 |})
    (fun e =>
       logger_error ("Vector health check failed: " ++ str e) ;;
       raise (HTTPException 503 ("Service unavailable: " ++ str e))).

(** ** POST /vector/chat *)

(** [[source.get("page_url") for source in sources if source.get("page_url")]] *)
Fixpoint collect_page_urls (srcs : list Source) : list string :=
  match srcs with
  | [] => []
  | source :: rest =>
      match page_url source with
      | Some (String c s) => String c s :: collect_page_urls rest
      | _ => collect_page_urls rest
      end
  end.

(** Truth value of [answer.get("sources")]: false for an absent key and for
    an empty list. *)
Definition truthy_list {A} (l : option (list A)) : bool :=
  match l with
  | Some (_ :: _) => true
  | _ => false
  end.

Definition chat_with_knowledge_base (question : string) : Router ChatResponse :=
  try_except
    (rag_answer <- invoke (AnswerQuestion question) (answer_question svc question) ;;
     answer_text <- lift (getitem "answer" (answer rag_answer)) ;;
     used <- lift (getitem "context_used" (context_used rag_answer)) ;;
     let response :=
       {| chat_question := question;
          chat_answer := answer_text;
          chat_context_used := used;
          sources_count := len (get_default (sources rag_answer) []);
          model := model_used rag_answer;
          source_urls := None |} in
     if truthy_list (sources rag_answer) then
       srcs <- lift (getitem "sources" (sources rag_answer)) ;;
       ret {| chat_question := chat_question response;
              chat_answer := chat_answer response;
              chat_context_used := chat_context_used response;
              sources_count := sources_count response;
              model := model response;
              source_urls := Some (collect_page_urls srcs) |}
     else ret response)
    (fun e =>
       logger_error ("Error in chat: " ++ str e) ;;
       raise (HTTPException 500 (str e))).

(** ** POST /vector/sync *)

Fixpoint for_each {A} (l : list A) (body : A -> Router unit) : Router unit :=
  match l with
  | [] => ret tt
  | x :: rest => body x ;; for_each rest body
  end.

Definition sync_database (request : SyncRequest) (notion_database_ids : list string)
  : Router SyncAck :=
  try_except
    (for_each notion_database_ids (fun database_id =>
       let task := {| task_database_id := database_id;
                      task_force_update := force_update request;
                      task_page_limit := page_limit request |} in
       invoke (AddTask task) (add_task svc task)) ;;
     ret {| ack_status := "started";
            ack_message := "notion synced";
            ack_force_update := force_update request |})
    (fun e =>
       logger_error ("Error starting database sync: " ++ str e) ;;
       raise (HTTPException 500 (str e))).

(** ** _sync_database_background *)

(** The [while] loop that collects the pages of one database.  The
    arguments after [limit] are the loop's variables. *)
Fixpoint fetch_pages (fuel : nat) (database : string) (limit : option Z)
    (all_pages : list Page) (more : bool) (cursor : option string)
    (pages_processed : Z) : Router (list Page) :=
  if more && match limit with
             | None => true
             | Some l => pages_processed <? l
             end
  then
    match fuel with
    | O => fun st => (OutOfFuel, st)
    | S fuel' =>
        let query_params :=
          {| database_id := database;
             page_size :=
               Z.min 100 (if truthy_int limit
                          then get_default limit 0 - pages_processed
                          else 100);
             start_cursor := if truthy_str cursor then cursor else None |} in
        response <- invoke (DatabasesQuery query_params)
                           (databases_query svc query_params) ;;
        let pages := get_default (results response) [] in
        let all_pages := (all_pages ++ pages)%list in
        let more := get_default (has_more response) false in
        let cursor := next_cursor response in
        let pages_processed := pages_processed + len pages in
        if truthy_int limit && (get_default limit 0 <=? pages_processed)
        then ret all_pages
        else fetch_pages fuel' database limit all_pages more cursor pages_processed
    end
  else ret all_pages.

(** [for block in ...: pageContent.append(extract_block_content(block))] *)
Fixpoint extract_blocks (blocks : list Block) : Exn + list Content :=
  match blocks with
  | [] => inr []
  | block :: rest =>
      match extract_block_content svc block with
      | inl e => inl e
      | inr c =>
          match extract_blocks rest with
          | inl e => inl e
          | inr cs => inr (c :: cs)
          end
      end
  end.

Definition sync_results_init : SyncResults :=
  {| success := 0; skipped := 0; errors := 0; total_chunks := 0 |}.

Definition incr_success (r : SyncResults) : SyncResults :=
  {| success := success r + 1; skipped := skipped r;
     errors := errors r; total_chunks := total_chunks r |}.

Definition incr_skipped (r : SyncResults) : SyncResults :=
  {| success := success r; skipped := skipped r + 1;
     errors := errors r; total_chunks := total_chunks r |}.

Definition incr_errors (r : SyncResults) : SyncResults :=
  {| success := success r; skipped := skipped r;
     errors := errors r + 1; total_chunks := total_chunks r |}.

Definition add_chunks (r : SyncResults) (n : Z) : SyncResults :=
  {| success := success r; skipped := skipped r;
     errors := errors r; total_chunks := total_chunks r + n |}.

(** The statements of the inner [try] that follow the store call.  The
    counters are a dict updated in place, so an update made before an
    exception is kept: the result is the counters as they are when the
    block ends, together with the exception that ended it, if any. *)
Definition tally (result : StoreResult) (sync_results : SyncResults)
  : SyncResults * option Exn :=
  match status result with
  | None => (sync_results, Some (KeyError "status"))
  | Some s =>
      if String.eqb s "success" then
        let sync_results := incr_success sync_results in
        match chunks_stored result with
        | None => (sync_results, Some (KeyError "chunks_stored"))
        | Some n => (add_chunks sync_results n, None)
        end
      else if String.eqb s "skipped" then (incr_skipped sync_results, None)
      else (sync_results, None)
  end.

(** Body of [for page in all_pages]. *)
Definition sync_page (database : string) (force : bool)
    (sync_results : SyncResults) (page : Page) : Router SyncResults :=
  blocks_response <- invoke (BlocksChildrenList (id page))
                            (blocks_children_list svc (id page)) ;;
  pageContent <- lift (extract_blocks (get_default (block_results blocks_response) [])) ;;
  let page := set_content page pageContent in
  fun st =>
    let (r, w) := store_notion_page svc (id page) page database force (world st) in
    let st := mkState w (trace st ++ [StoreNotionPage (id page) page database force r]) in
    let (sync_results, raised) :=
      match r with
      | inl e => (sync_results, Some e)
      | inr result => tally result sync_results
      end in
    match raised with
    | None => ret sync_results st
    | Some e =>
        (logger_error ("Error syncing page " ++ id page ++ ": " ++ str e) ;;
         ret (incr_errors sync_results)) st
    end.

Fixpoint sync_pages (database : string) (force : bool)
    (sync_results : SyncResults) (all_pages : list Page) : Router SyncResults :=
  match all_pages with
  | [] => ret sync_results
  | page :: rest =>
      sync_results <- sync_page database force sync_results page ;;
      sync_pages database force sync_results rest
  end.

(** [str] of the counters dict, as the final log record prints it. *)
Definition repr_sync_results (r : SyncResults) : string :=
  "{'success': " ++ str_of_int (success r) ++
  ", 'skipped': " ++ str_of_int (skipped r) ++
  ", 'errors': " ++ str_of_int (errors r) ++
  ", 'total_chunks': " ++ str_of_int (total_chunks r) ++ "}".

Definition _sync_database_background (fuel : nat) (database : string)
    (force : bool) (limit : option Z) : Router unit :=
  try_except
    (logger_info ("Starting background sync for database " ++ database) ;;
     all_pages <- fetch_pages fuel database limit [] true None 0 ;;
     logger_info ("Found " ++ str_of_int (len all_pages) ++ " pages to sync") ;;
     sync_results <- sync_pages database force sync_results_init all_pages ;;
     logger_info ("Database sync completed: " ++ repr_sync_results sync_results))
    (fun e => logger_error ("Error in background database sync: " ++ str e)).

(** The framework's background-task queue.  A queued task is the sync
    function applied to the arguments stored with it; the queue is run in
    order once the response has been sent. *)
Definition run_task (fuel : nat) (task : Task) : Router unit :=
  _sync_database_background fuel (task_database_id task)
    (task_force_update task) (task_page_limit task).

Definition run_background_tasks (fuel : nat) (tasks : list Task) : Router unit :=
  for_each tasks (run_task fuel).

End Router.

(** The tasks a handler has queued, read off its trace. *)
Fixpoint scheduled (evs : list Event) : list Task :=
  match evs with
  | [] => []
  | AddTask task (inr _) :: rest => task :: scheduled rest
  | _ :: rest => scheduled rest
  end.

(** ** Configuration *)

(** [s.split(sep)] for a one-character separator. *)
Fixpoint split (sep : ascii) (s : string) : list string :=
  match s with
  | EmptyString => [EmptyString]
  | String c rest =>
      if Ascii.eqb c sep then EmptyString :: split sep rest
      else match split sep rest with
           | [] => [String c EmptyString]
           | word :: words => String c word :: words
           end
  end.

(** [os.getenv("NOTION_DATABASE_IDS", "").split(",")
     if os.getenv("NOTION_DATABASE_IDS") else []] *)
Definition notion_database_ids (env : option string) : list string :=
  if truthy_str env then split "," (get_default env EmptyString) else [].

(** ** Reading a trace *)

(** The exception a collaborator call ended with, if it did. *)
Definition raised_by (ev : Event) : option Exn :=
  match ev with
  | EnsureVectorIndex (inl e) | GetStats (inl e) | GenerateEmbedding _ (inl e)
  | DatabasesQuery _ (inl e) | BlocksChildrenList _ (inl e)
  | StoreNotionPage _ _ _ _ (inl e) | AnswerQuestion _ (inl e)
  | AddTask _ (inl e) => Some e
  | _ => None
  end.

(** A store call, if the event is one, carries the given [force_update]. *)
Definition stores_with (force_update : bool) (ev : Event) : Prop :=
  match ev with
  | StoreNotionPage _ _ _ force _ => force = force_update
  | _ => True
  end.

(** The event touches a page: a source query, a block listing or a store. *)
Definition touches_page (ev : Event) : bool :=
  match ev with
  | DatabasesQuery _ _ | BlocksChildrenList _ _ | StoreNotionPage _ _ _ _ _ => true
  | _ => false
  end.

(** The page ids for which the store was called. *)
Fixpoint stored_ids (evs : list Event) : list string :=
  match evs with
  | [] => []
  | StoreNotionPage page_id _ _ _ _ :: rest => page_id :: stored_ids rest
  | _ :: rest => stored_ids rest
  end.

(** The pages the source has returned along a trace. *)
Fixpoint fetched (evs : list Event) : list Page :=
  match evs with
  | [] => []
  | DatabasesQuery _ (inr response) :: rest =>
      (get_default (results response) [] ++ fetched rest)%list
  | _ :: rest => fetched rest
  end.

(** Every query of a trace asks for [min(100, remaining quota)], the quota
    being [limit] less the pages received before the query. *)
Fixpoint batch_sizes_ok (limit received : Z) (evs : list Event) : Prop :=
  match evs with
  | [] => True
  | DatabasesQuery query_params r :: rest =>
      page_size query_params = Z.min 100 (limit - received) /\
      batch_sizes_ok limit
        (received + match r with
                    | inr response => len (get_default (results response) [])
                    | inl _ => 0
                    end) rest
  | _ :: rest => batch_sizes_ok limit received rest
  end.

(** The cursor protocol: a query carries [start_cursor] only when the
    cursor held by the loop is non-empty, and that cursor is the
    [next_cursor] of the previous answer. *)
Fixpoint cursors_ok (cursor : option string) (evs : list Event) : Prop :=
  match evs with
  | [] => True
  | DatabasesQuery query_params r :: rest =>
      start_cursor query_params = (if truthy_str cursor then cursor else None) /\
      cursors_ok match r with
                 | inr response => next_cursor response
                 | inl _ => cursor
                 end rest
  | _ :: rest => cursors_ok cursor rest
  end.

(** The [has_more] flag after a trace: the one of the last answered query. *)
Fixpoint more_after (more : bool) (evs : list Event) : bool :=
  match evs with
  | [] => more
  | DatabasesQuery _ (inr response) :: rest =>
      more_after (get_default (has_more response) false) rest
  | _ :: rest => more_after more rest
  end.

(** The source never fails, returns at most [page_size] pages, and returns
    at least one page whenever it says there are more. *)
Definition paginates {World} (svc : Services World) : Prop :=
  forall query_params w,
    1 <= page_size query_params ->
    exists response w',
      databases_query svc query_params w = (inr response, w') /\
      len (get_default (results response) []) <= page_size query_params /\
      (get_default (has_more response) false = true ->
       1 <= len (get_default (results response) [])).

(** The counters [after] differ from [before] by at most one increment of
    one of [success], [skipped] and [errors]. *)
Definition at_most_one_incremented (before after : SyncResults) : Prop :=
  (success after = success before /\ skipped after = skipped before /\
   errors after = errors before) \/
  (success after = success before + 1 /\ skipped after = skipped before /\
   errors after = errors before) \/
  (success after = success before /\ skipped after = skipped before + 1 /\
   errors after = errors before) \/
  (success after = success before /\ skipped after = skipped before /\
   errors after = errors before + 1).

Definition outcomes (r : SyncResults) : Z := success r + skipped r + errors r.

(** The non-empty [page_url] values of a list of sources, in the words of
    the response contract: keep the sources that have one, then project. *)
Definition has_page_url (source : Source) : bool := truthy_str (page_url source).

Definition nonempty_page_urls (srcs : list Source) : list string :=
  map (fun source => get_default (page_url source) EmptyString)
      (filter has_page_url srcs).

(** ** An in-memory stand-in for the collaborators

    The world is the list of pages the source has not handed out yet; the
    other replies are scripted.  It is used to run the handlers on concrete
    inputs. *)
Module Fake.

Record Script : Type := mkScript {
  ensure_reply : Exn + unit;
  stats_reply : Exn + Stats;
  embedding_reply : Exn + Embedding;
  blocks_reply : string -> Exn + BlocksResponse;
  store_reply : string -> Exn + StoreResult;
  rag_reply : string -> Exn + Answer;
  enqueue_reply : Task -> Exn + unit
}.

Definition query (query_params : QueryParams) (pending : list Page)
  : (Exn + Response) * list Page :=
  let n := Z.to_nat (page_size query_params) in
  let rest := skipn n pending in
  let more := match rest with [] => false | _ :: _ => true end in
  (inr {| results := Some (firstn n pending);
          has_more := Some more;
          next_cursor := if more then Some "cursor" else None |},
   rest).

Definition services (s : Script) : Services (list Page) :=
  {| ensure_vector_index := fun w => (ensure_reply s, w);
     get_stats := fun w => (stats_reply s, w);
     generate_embedding := fun _ w => (embedding_reply s, w);
     embedding_model_name := "all-MiniLM-L6-v2";
     model_name := "gemini";
     databases_query := query;
     blocks_children_list := fun block_id w => (blocks_reply s block_id, w);
     extract_block_content := fun block => inr block;
     store_notion_page := fun page_id _ _ _ w => (store_reply s page_id, w);
     answer_question := fun question w => (rag_reply s question, w);
     add_task := fun task w => (enqueue_reply s task, w) |}.

Definition stored (n : Z) : StoreResult :=
  {| status := Some "success"; chunks_stored := Some n |}.

Definition rag_answer (srcs : option (list Source)) (m : option string) : Answer :=
  {| answer := Some "42"; context_used := Some true;
     sources := srcs; model_used := m |}.

(** Everything works: each page has one block and stores as three chunks. *)
Definition healthy : Script :=
  {| ensure_reply := inr tt;
     stats_reply := inr {| stats_total_chunks := Some 7; stats_unique_pages := None |};
     embedding_reply := inr [1%Q; 2%Q; 3%Q];
     blocks_reply := fun _ => inr {| block_results := Some ["paragraph"] |};
     store_reply := fun _ => inr (stored 3);
     rag_reply := fun _ => inr (rag_answer None None);
     enqueue_reply := fun _ => inr tt |}.

Definition with_stats (r : Exn + Stats) (s : Script) : Script :=
  {| ensure_reply := ensure_reply s; stats_reply := r;
     embedding_reply := embedding_reply s; blocks_reply := blocks_reply s;
     store_reply := store_reply s; rag_reply := rag_reply s;
     enqueue_reply := enqueue_reply s |}.

Definition with_blocks (f : string -> Exn + BlocksResponse) (s : Script) : Script :=
  {| ensure_reply := ensure_reply s; stats_reply := stats_reply s;
     embedding_reply := embedding_reply s; blocks_reply := f;
     store_reply := store_reply s; rag_reply := rag_reply s;
     enqueue_reply := enqueue_reply s |}.

Definition with_store (f : string -> Exn + StoreResult) (s : Script) : Script :=
  {| ensure_reply := ensure_reply s; stats_reply := stats_reply s;
     embedding_reply := embedding_reply s; blocks_reply := blocks_reply s;
     store_reply := f; rag_reply := rag_reply s;
     enqueue_reply := enqueue_reply s |}.

Definition with_rag (f : string -> Exn + Answer) (s : Script) : Script :=
  {| ensure_reply := ensure_reply s; stats_reply := stats_reply s;
     embedding_reply := embedding_reply s; blocks_reply := blocks_reply s;
     store_reply := store_reply s; rag_reply := f;
     enqueue_reply := enqueue_reply s |}.

Definition with_enqueue (f : Task -> Exn + unit) (s : Script) : Script :=
  {| ensure_reply := ensure_reply s; stats_reply := stats_reply s;
     embedding_reply := embedding_reply s; blocks_reply := blocks_reply s;
     store_reply := store_reply s; rag_reply := rag_reply s;
     enqueue_reply := f |}.

Definition page (name : string) : Page :=
  {| id := name; properties := "{}"; content := None |}.

(** A source database of [n] pages named by their position. *)
Definition database (n : nat) : list Page :=
  map (fun i => page (str_of_int (Z.of_nat i))) (seq 1 n).

Definition start (pages : list Page) : State (list Page) := mkState pages [].

End Fake.

(** ** Trace properties of computations *)

(** [emits P m]: whatever [m] does, it appends to the trace, and every
    event it appends satisfies [P]. *)
Definition emits {World A} (P : Event -> Prop) (m : M World A) : Prop :=
  forall st r st',
    m st = (r, st') ->
    exists delta, trace st' = (trace st ++ delta)%list /\ Forall P delta.

(** A handler surfaces a failed collaborator call as HTTP 500: if a call in
    the handler's part of the trace raised [e], the handler raises
    [HTTPException 500] with detail [str e]; the failed call is the last
    call of the handler (nothing is tried again), followed only by the
    error log record, and no earlier call had failed. *)
Definition surfaces_500 {World A} (handler : M World A) : Prop :=
  forall st r st' delta ev e,
    handler st = (r, st') ->
    trace st' = (trace st ++ delta)%list ->
    In ev delta ->
    raised_by ev = Some e ->
    r = Raise (HTTPException 500 (str e)) /\
    exists before msg,
      delta = (before ++ [ev; Log ERROR msg])%list /\
      Forall (fun ev' => raised_by ev' = None) before.

(** ** The scheduling loop of the sync trigger *)

Section Scheduling.

Context {World : Type}.
Variable svc : Services World.
Variable request : SyncRequest.

(** The task queued for one database id. *)
Definition task_for (database_id : string) : Task :=
  {| task_database_id := database_id;
     task_force_update := force_update request;
     task_page_limit := page_limit request |}.

Definition enqueue (database_id : string) : M World unit :=
  invoke (AddTask (task_for database_id)) (add_task svc (task_for database_id)).

Definition queued_ok (ev : Event) : Prop :=
  exists database_id, ev = AddTask (task_for database_id) (inr tt).

End Scheduling.

(** ** Statements about the chat response *)

(** The reading under which [source_urls] is left out whenever no source
    has a non-empty [page_url]. *)
Definition omits_source_urls_without_urls {World} (svc : Services World) : Prop :=
  forall question st response st' a w,
    answer_question svc question (world st) = (inr a, w) ->
    chat_with_knowledge_base svc question st = (Val response, st') ->
    nonempty_page_urls (get_default (sources a) []) = [] ->
    source_urls response = None.

(** [sync_database]'s acknowledgment. *)
Definition started (request : SyncRequest) : SyncAck :=
  {| ack_status := "started";
     ack_message := "notion synced";
     ack_force_update := force_update request |}.

(** ** More readings of a trace *)

(** The page sizes asked for along a trace. *)
Fixpoint query_sizes (evs : list Event) : list Z :=
  match evs with
  | [] => []
  | DatabasesQuery query_params _ :: rest => page_size query_params :: query_sizes rest
  | _ :: rest => query_sizes rest
  end.

(** ** Further readings of a trace *)

(** The event is a source query for [database] asking for 1 to 100 pages. *)
Definition is_query_to (database : string) (ev : Event) : Prop :=
  match ev with
  | DatabasesQuery query_params _ =>
      database_id query_params = database /\ 1 <= page_size query_params <= 100
  | _ => False
  end.

(** The event is not a collaborator call that raised. *)
Definition answered (ev : Event) : Prop := raised_by ev = None.

(** The limit, if there is one, has been reached with [n] pages. *)
Definition limit_reached (limit : option Z) (n : Z) : Prop :=
  exists l, limit = Some l /\ l <= n.

(** The event is neither a query, nor a block listing, nor a store. *)
Definition no_page_call (ev : Event) : Prop := touches_page ev = false.

(** The pages handed to the store, and the ids whose blocks were listed. *)
Fixpoint stored_pages (evs : list Event) : list Page :=
  match evs with
  | [] => []
  | StoreNotionPage _ page_data _ _ _ :: rest => page_data :: stored_pages rest
  | _ :: rest => stored_pages rest
  end.

Fixpoint listed_ids (evs : list Event) : list string :=
  match evs with
  | [] => []
  | BlocksChildrenList block_id _ :: rest => block_id :: listed_ids rest
  | _ :: rest => listed_ids rest
  end.

(** What the source said about a page: everything but the added content. *)
Definition metadata (page : Page) : string * string := (id page, properties page).

(** A store call is made with the page's own id, for [database], with
    [force], and with the page's content filled in. *)
Definition store_call_ok (database : string) (force : bool) (ev : Event) : Prop :=
  match ev with
  | StoreNotionPage page_id page_data db f _ =>
      page_id = id page_data /\ db = database /\ f = force /\
      content page_data <> None
  | _ => True
  end.

(** Classification of what a store call came back with. *)
Definition status_is (s : string) (r : Exn + StoreResult) : bool :=
  match r with
  | inr result =>
      match status result with
      | Some s' => String.eqb s' s
      | None => false
      end
  | inl _ => false
  end.

Definition lacks_chunks (r : Exn + StoreResult) : bool :=
  match r with
  | inr result =>
      match chunks_stored result with
      | None => true
      | Some _ => false
      end
  | inl _ => false
  end.

(** The replies after which the per-page handler runs: the call raised, the
    result has no status, or it is a "success" without [chunks_stored]. *)
Definition ends_in_handler (r : Exn + StoreResult) : bool :=
  match r with
  | inl _ => true
  | inr result =>
      match status result with
      | None => true
      | Some _ => status_is "success" r && lacks_chunks r
      end
  end.

Definition chunks_of (r : Exn + StoreResult) : Z :=
  match r with
  | inr result =>
      if status_is "success" r then get_default (chunks_stored result) 0 else 0
  | inl _ => 0
  end.

Fixpoint count_stores (p : Exn + StoreResult -> bool) (evs : list Event) : Z :=
  match evs with
  | [] => 0
  | StoreNotionPage _ _ _ _ r :: rest =>
      (if p r then 1 else 0) + count_stores p rest
  | _ :: rest => count_stores p rest
  end.

Fixpoint chunks_in (evs : list Event) : Z :=
  match evs with
  | [] => 0
  | StoreNotionPage _ _ _ _ r :: rest => chunks_of r + chunks_in rest
  | _ :: rest => chunks_in rest
  end.

Fixpoint error_logs (evs : list Event) : Z :=
  match evs with
  | [] => 0
  | Log ERROR _ :: rest => 1 + error_logs rest
  | _ :: rest => error_logs rest
  end.

(** The RAG calls of a trace, with the question asked. *)
Fixpoint questions_asked (evs : list Event) : list string :=
  match evs with
  | [] => []
  | AnswerQuestion question _ :: rest => question :: questions_asked rest
  | _ :: rest => questions_asked rest
  end.

(** ** The configured list, read back *)

(** [sep.join(words)] *)
Fixpoint join (sep : ascii) (words : list string) : string :=
  match words with
  | [] => EmptyString
  | [word] => word
  | word :: rest => word ++ String sep (join sep rest)
  end.

Fixpoint occurrences (c : ascii) (s : string) : nat :=
  match s with
  | EmptyString => 0
  | String c' rest => (if Ascii.eqb c' c then 1 else 0) + occurrences c rest
  end.

(** ** A source that never finishes

    It answers every query with no page and [has_more = true]. *)
Definition stalls {World} (svc : Services World) : Prop :=
  forall query_params w,
    exists response w',
      databases_query svc query_params w = (inr response, w') /\
      get_default (results response) [] = [] /\
      get_default (has_more response) false = true.

Definition stalled_services : Services unit :=
  {| ensure_vector_index := fun w => (inr tt, w);
     get_stats := fun w => (inr {| stats_total_chunks := None; stats_unique_pages := None |}, w);
     generate_embedding := fun _ w => (inr [], w);
     embedding_model_name := "none";
     model_name := "none";
     databases_query := fun _ w =>
       (inr {| results := Some []; has_more := Some true; next_cursor := None |}, w);
     blocks_children_list := fun _ w => (inr {| block_results := None |}, w);
     extract_block_content := fun block => inr block;
     store_notion_page := fun _ _ _ _ w => (inr (Fake.stored 0), w);
     answer_question := fun _ w => (inr (Fake.rag_answer None None), w);
     add_task := fun _ w => (inr tt, w) |}.

(** Number of source queries in a trace. *)
Fixpoint query_count (evs : list Event) : nat :=
  match evs with
  | [] => 0
  | DatabasesQuery _ _ :: rest => S (query_count rest)
  | _ :: rest => query_count rest
  end.

(** The content handed to the store is the extraction, in order, of the
    blocks last listed: [listed] is the block list of the latest listing. *)
Fixpoint content_follows_blocks {World} (svc : Services World)
    (listed : list Block) (evs : list Event) : Prop :=
  match evs with
  | [] => True
  | BlocksChildrenList _ (inr blocks_response) :: rest =>
      content_follows_blocks svc (get_default (block_results blocks_response) []) rest
  | StoreNotionPage _ page_data _ _ _ :: rest =>
      match content page_data with
      | Some pageContent => extract_blocks svc listed = inr pageContent
      | None => False
      end /\
      content_follows_blocks svc listed rest
  | _ :: rest => content_follows_blocks svc listed rest
  end.

(** 1 for [true], 0 for [false]. *)
Definition one_if (b : bool) : Z := if b then 1 else 0.

(** The counters after the inner [try] and its handler, given what the
    store call came back with. *)
Definition counted (r : Exn + StoreResult) (sync_results : SyncResults) : SyncResults :=
  let after := match r with
               | inl e => (sync_results, Some e)
               | inr result => tally result sync_results
               end in
  match snd after with
  | None => fst after
  | Some _ => incr_errors (fst after)
  end.

(** The exception the per-page handler receives after a store reply, if
    the handler runs at all. *)
Definition handled (r : Exn + StoreResult) : option Exn :=
  match r with
  | inl e => Some e
  | inr result => snd (tally result sync_results_init)
  end.

(** The events one iteration appends after the block listing succeeded with
    [blocks_response], the extraction gave [pageContent] and the store call
    came back with [r]. *)
Definition iteration_events (database : string) (force : bool) (page : Page)
    (blocks_response : BlocksResponse) (pageContent : list Content)
    (r : Exn + StoreResult) : list Event :=
  BlocksChildrenList (id page) (inr blocks_response) ::
  StoreNotionPage (id page) (set_content page pageContent) database force r ::
  match handled r with
  | Some e => [Log ERROR ("Error syncing page " ++ id page ++ ": " ++ str e)]
  | None => []
  end.

(** The events the page loop appends: block listings, store calls and
    error log records. *)
Definition page_loop_event (ev : Event) : Prop :=
  match ev with
  | BlocksChildrenList _ _ | StoreNotionPage _ _ _ _ _ | Log ERROR _ => True
  | _ => False
  end.

(** The event, if it is a query, asks for [n] pages. *)
Definition asks_for (n : Z) (ev : Event) : Prop :=
  match ev with
  | DatabasesQuery query_params _ => page_size query_params = n
  | _ => True
  end.

(** The log records of a background run. *)
Definition log_starting (database : string) : Event :=
  Log INFO ("Starting background sync for database " ++ database).

Definition log_found (all_pages : list Page) : Event :=
  Log INFO ("Found " ++ str_of_int (len all_pages) ++ " pages to sync").

Definition log_completed (sync_results : SyncResults) : Event :=
  Log INFO ("Database sync completed: " ++ repr_sync_results sync_results).

Definition log_aborted (e : Exn) : Event :=
  Log ERROR ("Error in background database sync: " ++ str e).

(** A source whose first query returns one page and says there is more, and
    whose later queries all raise.  The world counts the queries. *)
Definition flaky_services : Services nat :=
  {| ensure_vector_index := fun w => (inr tt, w);
     get_stats := fun w => (inr {| stats_total_chunks := None; stats_unique_pages := None |}, w);
     generate_embedding := fun _ w => (inr [], w);
     embedding_model_name := "none";
     model_name := "none";
     databases_query := fun _ w =>
       match w with
       | O => (inr {| results := Some [Fake.page "1"];
                      has_more := Some true;
                      next_cursor := Some "cursor" |}, S w)
       | S _ => (inl (Exception "timeout"), S w)
       end;
     blocks_children_list := fun _ w => (inr {| block_results := None |}, w);
     extract_block_content := fun block => inr block;
     store_notion_page := fun _ _ _ _ w => (inr (Fake.stored 1), w);
     answer_question := fun _ w => (inr (Fake.rag_answer None None), w);
     add_task := fun _ w => (inr tt, w) |}.

(** The loop guard holds: there is no limit, or the limit is not reached. *)
Definition below_limit (limit : option Z) (pages_processed : Z) : Prop :=
  match limit with
  | None => True
  | Some l => pages_processed < l
  end.

(** ** Readings of the request handlers *)

(** The first of the two required keys that a RAG result lacks. *)
Definition missing_key (a : Answer) : option string :=
  match answer a, context_used a with
  | None, _ => Some "answer"
  | Some _, None => Some "context_used"
  | Some _, Some _ => None
  end.

(** The events a chat request may append: the RAG call and error logs. *)
Definition chat_event (ev : Event) : Prop :=
  match ev with
  | AnswerQuestion _ _ | Log ERROR _ => True
  | _ => False
  end.

(** The events a health check may append. *)
Definition health_event (ev : Event) : Prop :=
  match ev with
  | GetStats _ | GenerateEmbedding "test" _ | Log ERROR _ => True
  | _ => False
  end.

(** The embedding probes of a trace. *)
Fixpoint probes (evs : list Event) : list (Exn + Embedding) :=
  match evs with
  | [] => []
  | GenerateEmbedding _ r :: rest => r :: probes rest
  | _ :: rest => probes rest
  end.

Definition no_comma (word : string) : Prop := occurrences "," word = 0%nat.

(** Two pages; the store skips the second one. *)
Definition second_skipped : Services (list Page) :=
  Fake.services
    (Fake.with_store
       (fun page_id =>
          if String.eqb page_id "2"
          then inr {| status := Some "skipped"; chunks_stored := None |}
          else inr (Fake.stored 3))
       Fake.healthy).

(** The store raises for page "1". *)
Definition first_write_fails : Services (list Page) :=
  Fake.services
    (Fake.with_store
       (fun page_id =>
          if String.eqb page_id "1" then inl (Exception "write failed")
          else inr (Fake.stored 3))
       Fake.healthy).

(** The store answers without a status. *)
Definition store_without_status : Services (list Page) :=
  Fake.services
    (Fake.with_store
       (fun _ => inr {| status := None; chunks_stored := Some 3 |})
       Fake.healthy).

(** The RAG service answers without the [context_used] key. *)
Definition rag_without_context_flag : Services (list Page) :=
  Fake.services
    (Fake.with_rag
       (fun _ => inr {| answer := Some "42"; context_used := None;
                        sources := None; model_used := None |})
       Fake.healthy).

(** The RAG service cites two sources, one of them without a URL. *)
Definition rag_with_two_sources : Services (list Page) :=
  Fake.services
    (Fake.with_rag
       (fun _ => inr (Fake.rag_answer
                        (Some [ {| page_url := Some "https://notion.so/p1" |};
                                {| page_url := None |} ])
                        (Some "gemini")))
       Fake.healthy).


(** * Properties *)

Ltac run :=
  unfold bind, try_except, invoke, emit, ret, raise, lift,
    logger_info, logger_error in *;
  simpl in *.

Ltac same_trace H :=
  simpl in H; rewrite <- ?app_assoc in H; apply app_inv_head in H; simpl in H.

(** ** Computations only ever extend the trace *)


Section Emits.

Context {World : Type}.
Variable P : Event -> Prop.

Lemma emits_ret {A} (a : A) : emits P (@ret World A a).
Proof.
  intros st r st' H. inversion H; subst. exists []. rewrite app_nil_r. auto.
Qed.

Lemma emits_raise {A} (e : Exn) : emits P (@raise World A e).
Proof.
  intros st r st' H. inversion H; subst. exists []. rewrite app_nil_r. auto.
Qed.

Lemma emits_lift {A} (x : Exn + A) : emits P (@lift World A x).
Proof.
  intros st r st' H. unfold lift in H.
  destruct x; inversion H; subst; exists []; rewrite app_nil_r; auto.
Qed.

Lemma emits_emit (ev : Event) : P ev -> emits P (@emit World ev).
Proof.
  intros Hev st r st' H. inversion H; subst. exists [ev]. simpl. auto.
Qed.

Lemma emits_invoke {A} (mk : Exn + A -> Event) (op : World -> (Exn + A) * World) :
  (forall r, P (mk r)) -> emits P (invoke mk op).
Proof.
  intros Hmk st r st' H. unfold invoke in H.
  destruct (op (world st)) as [x w].
  exists [mk x]. destruct x; inversion H; subst; simpl; auto.
Qed.

Lemma emits_bind {A B} (m : M World A) (k : A -> M World B) :
  emits P m -> (forall a, emits P (k a)) -> emits P (bind m k).
Proof.
  intros Hm Hk st r st' H. unfold bind in H.
  destruct (m st) as [ra st1] eqn:E.
  destruct (Hm _ _ _ E) as [d1 [T1 F1]].
  destruct ra as [a|e|].
  - destruct (Hk a _ _ _ H) as [d2 [T2 F2]].
    exists (d1 ++ d2)%list. rewrite T2, T1, app_assoc.
    split; [reflexivity | apply Forall_app; auto].
  - inversion H; subst. eauto.
  - inversion H; subst. eauto.
Qed.

Lemma emits_try_except {A} (body : M World A) (handler : Exn -> M World A) :
  emits P body -> (forall e, emits P (handler e)) -> emits P (try_except body handler).
Proof.
  intros Hb Hh st r st' H. unfold try_except in H.
  destruct (body st) as [ra st1] eqn:E.
  destruct (Hb _ _ _ E) as [d1 [T1 F1]].
  destruct ra as [a|e|].
  - inversion H; subst. eauto.
  - destruct (Hh e _ _ _ H) as [d2 [T2 F2]].
    exists (d1 ++ d2)%list. rewrite T2, T1, app_assoc.
    split; [reflexivity | apply Forall_app; auto].
  - inversion H; subst. eauto.
Qed.

Lemma emits_for_each {A} (l : list A) (body : A -> M World unit) :
  (forall x, emits P (body x)) -> emits P (for_each l body).
Proof.
  intros Hb. induction l as [|x l IH]; simpl.
  - apply emits_ret.
  - apply emits_bind; auto.
Qed.

End Emits.

Create HintDb emits.
#[local] Hint Resolve emits_ret emits_raise emits_lift emits_emit emits_invoke
  emits_bind emits_try_except emits_for_each : emits.

(** ** Startup and the read-only endpoints *)

(** C7. At startup the index-ensure operation is called exactly once, before
    the hook yields to request serving; whether it returns or raises, the
    outcome is only logged and the hook yields all the same, with no second
    call. *)
Theorem lifespan_ensures_index_once :
  forall {World} (svc : Services World) (st : State World),
    let (r, w) := ensure_vector_index svc (world st) in
    lifespan svc st =
      (Val tt,
       mkState w
         (trace st ++
          [EnsureVectorIndex r;
           match r with
           | inr _ => Log INFO "Vector database initialized successfully"
           | inl e => Log ERROR ("Error initializing vector database: " ++ str e)
           end;
           Yield])%list).
Proof.
  intros World svc st. unfold lifespan. run.
  destruct (ensure_vector_index svc (world st)) as [[e|u] w]; simpl;
    rewrite <- !app_assoc; reflexivity.
Qed.

(** C5. If the stats call or the embedding probe raises, the health check
    fails with status 503; otherwise it returns the healthy payload, whose
    [embedding_dimension] is the length of the probe embedding. *)
Theorem vector_health_check_503_or_healthy :
  forall {World} (svc : Services World) (st : State World),
    match get_stats svc (world st) with
    | (inl e, _) =>
        fst (vector_health_check svc st) =
          Raise (HTTPException 503 ("Service unavailable: " ++ str e))
    | (inr stats, w) =>
        match generate_embedding svc "test" w with
        | (inl e, _) =>
            fst (vector_health_check svc st) =
              Raise (HTTPException 503 ("Service unavailable: " ++ str e))
        | (inr test_embedding, _) =>
            exists payload,
              fst (vector_health_check svc st) = Val payload /\
              health_status payload = "healthy" /\
              embedding_dimension payload = len test_embedding /\
              health_total_chunks payload = get_default (stats_total_chunks stats) 0 /\
              health_unique_pages payload = get_default (stats_unique_pages stats) 0
        end
    end.
Proof.
  intros World svc st. unfold vector_health_check. run.
  destruct (get_stats svc (world st)) as [[e|stats] w]; simpl; [reflexivity|].
  destruct (generate_embedding svc "test" w) as [[e|emb] w']; simpl; [reflexivity|].
  eexists. repeat split.
Qed.

(** ** Failures of the delegated work *)


Section SchedulingFacts.

Context {World : Type}.
Variable svc : Services World.
Variable request : SyncRequest.


(** The scheduling loop: either every task was queued, or the loop stopped
    at the first [add_task] that raised. *)
Lemma for_each_enqueue :
  forall ids st r st',
    for_each ids (enqueue svc request) st = (r, st') ->
    exists queued done,
      Forall (queued_ok request) queued /\
      scheduled queued = map (task_for request) done /\
      ((r = Val tt /\ done = ids /\ trace st' = (trace st ++ queued)%list) \/
       (exists e database_id,
          r = Raise e /\
          trace st' =
            (trace st ++ queued ++ [AddTask (task_for request database_id) (inl e)])%list)).
Proof.
  induction ids as [|database_id ids IH]; intros st r st' H; simpl in H.
  - inversion H; subst. exists [], []. repeat split; auto.
    left. rewrite app_nil_r. auto.
  - unfold bind, enqueue, invoke in H.
    destruct (add_task svc (task_for request database_id) (world st)) as [[e|[]] w] eqn:E.
    + inversion H; subst. exists [], []. repeat split; auto.
      right. exists e, database_id. simpl. auto.
    + apply IH in H. destruct H as [queued [done [Hq [Hs Hcase]]]].
      exists (AddTask (task_for request database_id) (inr tt) :: queued), (database_id :: done).
      split; [constructor; [exists database_id; reflexivity | assumption]|].
      split; [simpl; rewrite Hs; reflexivity|].
      destruct Hcase as [[Hr [Hd Ht]] | [e [d [Hr Ht]]]]; simpl in Ht.
      * left. subst. rewrite Ht, <- app_assoc. auto.
      * right. exists e, d. rewrite Ht, <- !app_assoc. auto.
Qed.

(** When queueing never fails, the loop queues one task per database id. *)
Lemma for_each_enqueue_total :
  (forall task w, fst (add_task svc task w) = inr tt) ->
  forall ids st,
    exists st',
      for_each ids (enqueue svc request) st = (Val tt, st') /\
      trace st' =
        (trace st ++
         map (fun database_id => AddTask (task_for request database_id) (inr tt)) ids)%list.
Proof.
  intros Hadd. induction ids as [|database_id ids IH]; intros st; simpl.
  - exists st. rewrite app_nil_r. auto.
  - unfold bind, enqueue, invoke.
    specialize (Hadd (task_for request database_id) (world st)).
    destruct (add_task svc (task_for request database_id) (world st)) as [x w].
    simpl in Hadd. subst x.
    destruct (IH (mkState w (trace st ++ [AddTask (task_for request database_id) (inr tt)])))
      as [st' [E T]].
    exists st'. split; [exact E|]. rewrite T. simpl. rewrite <- app_assoc. reflexivity.
Qed.

Lemma scheduled_queued :
  forall ids,
    scheduled (map (fun database_id => AddTask (task_for request database_id) (inr tt)) ids)
    = map (task_for request) ids.
Proof.
  induction ids as [|database_id ids IH]; simpl; [|rewrite IH]; reflexivity.
Qed.

Lemma queued_ok_not_raised : forall ev, (queued_ok request) ev -> raised_by ev = None.
Proof. intros ev [d ->]. reflexivity. Qed.

Lemma sync_database_unfold :
  forall ids,
    sync_database svc request ids =
    try_except
      (for_each ids (enqueue svc request) ;;
       ret {| ack_status := "started";
              ack_message := "notion synced";
              ack_force_update := force_update request |})
      (fun e =>
         logger_error ("Error starting database sync: " ++ str e) ;;
         raise (HTTPException 500 (str e))).
Proof. reflexivity. Qed.

End SchedulingFacts.

(** C6. In the stats, sync-trigger and chat handlers, a delegated call that
    raises is caught and surfaced as HTTP 500 whose detail is the
    exception's message; the failed call is not retried. *)
Theorem handlers_surface_failures_as_500 :
  forall {World} (svc : Services World),
    surfaces_500 (get_vector_db_stats svc) /\
    (forall request ids, surfaces_500 (sync_database svc request ids)) /\
    (forall question, surfaces_500 (chat_with_knowledge_base svc question)).
Proof.
  intros World svc. split; [|split].
  - intros st r st' delta ev e H T Hin Hev.
    unfold get_vector_db_stats in H. run.
    destruct (get_stats svc (world st)) as [[e0|stats] w]; simpl in H;
      inversion H; subst; clear H; same_trace T; subst delta.
    + destruct Hin as [<- | [<- | []]]; simpl in Hev; [|discriminate].
      inversion Hev; subst. split; [reflexivity|].
      exists [], ("Error getting stats: " ++ str e). auto.
    + destruct Hin as [<- | []]. discriminate.
  - intros request ids st r st' delta ev e H T Hin Hev.
    rewrite sync_database_unfold in H. unfold try_except, bind in H.
    destruct (for_each ids (enqueue svc request) st) as [r0 st0] eqn:E.
    apply for_each_enqueue in E.
    destruct E as [queued [done [Hq [_ [[Hr [_ Ht]] | [e0 [d [Hr Ht]]]]]]]]; subst r0.
    + run. inversion H; subst. rewrite Ht in T. apply app_inv_head in T. subst delta.
      rewrite Forall_forall in Hq. apply Hq, queued_ok_not_raised in Hin. congruence.
    + run. inversion H; subst; clear H. simpl in T. rewrite Ht in T.
      same_trace T. subst delta.
      assert (Hnone : Forall (fun ev' => raised_by ev' = None) queued).
      { eapply Forall_impl; [|exact Hq]. apply queued_ok_not_raised. }
      assert (ev = AddTask (task_for request d) (inl e0)).
      { apply in_app_or in Hin. destruct Hin as [Hin | [<- | [<- | []]]].
        - rewrite Forall_forall in Hnone. apply Hnone in Hin. congruence.
        - reflexivity.
        - discriminate. }
      subst ev. simpl in Hev. inversion Hev; subst.
      split; [reflexivity|]. eauto.
  - intros question st r st' delta ev e H T Hin Hev.
    unfold chat_with_knowledge_base in H. run.
    destruct (answer_question svc question (world st)) as [[e0|a] w]; simpl in H.
    + inversion H; subst; clear H. same_trace T. subst delta.
      destruct Hin as [<- | [<- | []]]; simpl in Hev; [|discriminate].
      inversion Hev; subst. split; [reflexivity|].
      exists [], ("Error in chat: " ++ str e). auto.
    + assert (forall ev', In ev' delta -> raised_by ev' = None) as Hall.
      { destruct (answer a); simpl in H;
          [destruct (context_used a); simpl in H;
             [destruct (sources a) as [[|? ?]|]; simpl in H|]|];
          inversion H; subst; clear H; same_trace T; subst delta;
          intros ev' Hin'; simpl in Hin';
          repeat (destruct Hin' as [<- | Hin']; [reflexivity|]); destruct Hin'. }
      apply Hall in Hin. congruence.
Qed.

(** ** The chat response *)

Lemma collect_page_urls_spec :
  forall srcs, collect_page_urls srcs = nonempty_page_urls srcs.
Proof.
  induction srcs as [|source srcs IH]; [reflexivity|].
  unfold nonempty_page_urls, has_page_url in *. simpl.
  destruct (page_url source) as [[|c u]|] eqn:E; simpl; rewrite ?E, IH; reflexivity.
Qed.

Lemma In_nonempty_page_urls :
  forall srcs u,
    In u (nonempty_page_urls srcs) <->
    u <> EmptyString /\ exists source, In source srcs /\ page_url source = Some u.
Proof.
  intros srcs u. unfold nonempty_page_urls. rewrite in_map_iff. split.
  - intros [source [Hu Hin]]. apply filter_In in Hin. destruct Hin as [Hin Ht].
    unfold has_page_url in Ht.
    destruct (page_url source) as [[|c v]|] eqn:E; try discriminate.
    simpl in Hu. subst u. split; [discriminate | eauto].
  - intros [Hne [source [Hin Hu]]]. exists source. rewrite Hu. split; [reflexivity|].
    apply filter_In. split; [assumption|].
    unfold has_page_url. rewrite Hu. destruct u; [congruence | reflexivity].
Qed.

(** What a chat request that returns has gone through. *)
Lemma chat_returns_inv :
  forall {World} (svc : Services World) question st response st',
    chat_with_knowledge_base svc question st = (Val response, st') ->
    exists a w answer_text used,
      answer_question svc question (world st) = (inr a, w) /\
      answer a = Some answer_text /\
      context_used a = Some used /\
      st' = mkState w (trace st ++ [AnswerQuestion question (inr a)])%list /\
      response =
        {| chat_question := question;
           chat_answer := answer_text;
           chat_context_used := used;
           sources_count := len (get_default (sources a) []);
           model := model_used a;
           source_urls :=
             if truthy_list (sources a)
             then Some (collect_page_urls (get_default (sources a) []))
             else None |}.
Proof.
  intros World svc question st response st' H.
  unfold chat_with_knowledge_base in H. run.
  destruct (answer_question svc question (world st)) as [[e|a] w]; simpl in H;
    [discriminate|].
  exists a, w.
  destruct (answer a) as [answer_text|]; simpl in H; [|discriminate].
  destruct (context_used a) as [used|]; simpl in H; [|discriminate].
  exists answer_text, used.
  destruct (sources a) as [[|source srcs]|]; simpl in H;
    inversion H; subst; repeat split; reflexivity.
Qed.

(** C3, refuted as stated: with one source that has no [page_url], the
    request succeeds and the response carries [source_urls], as the empty
    list. *)
Lemma source_urls_kept_without_urls :
  ~ omits_source_urls_without_urls
      (Fake.services
         (Fake.with_rag
            (fun _ => inr (Fake.rag_answer (Some [ {| page_url := None |} ]) None))
            Fake.healthy)).
Proof.
  intros Hall.
  specialize (Hall "q" (Fake.start []) _ _ _ _ eq_refl eq_refl eq_refl).
  discriminate Hall.
Qed.

Example chat_with_a_source_without_url :
  fst (chat_with_knowledge_base
         (Fake.services
            (Fake.with_rag
               (fun _ => inr (Fake.rag_answer (Some [ {| page_url := None |} ]) None))
               Fake.healthy))
         "q" (Fake.start []))
  = Val {| chat_question := "q"; chat_answer := "42"; chat_context_used := true;
           sources_count := 1; model := None; source_urls := Some [] |}.
Proof. reflexivity. Qed.

(** C3, amended. For every chat request that returns, [source_urls] is left
    out exactly when the RAG result has no sources (no [sources] key, or an
    empty list); when it is present it holds, in order, exactly the
    non-empty [page_url] values of the sources, which may be none at all. *)
Theorem chat_source_urls_follow_sources :
  forall {World} (svc : Services World) question st response st',
    chat_with_knowledge_base svc question st = (Val response, st') ->
    exists a w,
      answer_question svc question (world st) = (inr a, w) /\
      (source_urls response = None <-> truthy_list (sources a) = false) /\
      forall urls,
        source_urls response = Some urls ->
        urls = nonempty_page_urls (get_default (sources a) []) /\
        forall u,
          In u urls <->
          u <> EmptyString /\
          exists source,
            In source (get_default (sources a) []) /\ page_url source = Some u.
Proof.
  intros World svc question st response st' H.
  apply chat_returns_inv in H.
  destruct H as [a [w [answer_text [used [Hq [_ [_ [_ ->]]]]]]]].
  exists a, w. split; [assumption|]. simpl. split.
  - destruct (truthy_list (sources a)); split; congruence.
  - intros urls Hurls. destruct (truthy_list (sources a)); [|discriminate].
    inversion Hurls; subst. rewrite collect_page_urls_spec.
    split; [reflexivity | apply In_nonempty_page_urls].
Qed.

Lemma chat_source_urls_follow_sources_witness :
  let srcs := [ {| page_url := Some "https://notion.so/p1" |};
                {| page_url := Some EmptyString |};
                {| page_url := None |} ] in
  let svc := Fake.services
               (Fake.with_rag (fun _ => inr (Fake.rag_answer (Some srcs) None))
                  Fake.healthy) in
  let response :=
    {| chat_question := "q"; chat_answer := "42"; chat_context_used := true;
       sources_count := 3; model := None;
       source_urls := Some ["https://notion.so/p1"] |} in
  exists a w,
    answer_question svc "q" (world (Fake.start [])) = (inr a, w) /\
    (source_urls response = None <-> truthy_list (sources a) = false) /\
    forall urls,
      source_urls response = Some urls ->
      urls = nonempty_page_urls (get_default (sources a) []) /\
      forall u,
        In u urls <->
        u <> EmptyString /\
        exists source,
          In source (get_default (sources a) []) /\ page_url source = Some u.
Proof.
  intros srcs svc response.
  refine (chat_source_urls_follow_sources svc "q" (Fake.start []) response _ _).
  reflexivity.
Defined.

(** C10. A chat request that returns echoes the question, counts the
    sources of the RAG result (0 without a [sources] key) and copies
    [model_used] into [model]; a RAG result without [model_used] does not
    make the request fail, the response's [model] is then null. *)
Theorem chat_echoes_question_and_counts_sources :
  forall {World} (svc : Services World) question st,
    (forall response st',
        chat_with_knowledge_base svc question st = (Val response, st') ->
        exists a w,
          answer_question svc question (world st) = (inr a, w) /\
          chat_question response = question /\
          sources_count response =
            match sources a with Some srcs => len srcs | None => 0 end /\
          model response = model_used a) /\
    (forall a w answer_text used,
        answer_question svc question (world st) = (inr a, w) ->
        answer a = Some answer_text ->
        context_used a = Some used ->
        model_used a = None ->
        exists response,
          fst (chat_with_knowledge_base svc question st) = Val response /\
          model response = None).
Proof.
  intros World svc question st. split.
  - intros response st' H. apply chat_returns_inv in H.
    destruct H as [a [w [answer_text [used [Hq [_ [_ [_ ->]]]]]]]].
    exists a, w. simpl. repeat split; try assumption.
    destruct (sources a); reflexivity.
  - intros a w answer_text used Hq Ha Hc Hm.
    unfold chat_with_knowledge_base. run.
    rewrite Hq. simpl. rewrite Ha. simpl. rewrite Hc. simpl.
    destruct (sources a) as [[|source srcs]|]; simpl; eexists; split;
      try reflexivity; simpl; assumption.
Qed.

Lemma chat_echoes_question_and_counts_sources_witness :
  let svc := Fake.services Fake.healthy in
  let response :=
    {| chat_question := "why?"; chat_answer := "42"; chat_context_used := true;
       sources_count := 0; model := None; source_urls := None |} in
  (exists a w,
      answer_question svc "why?" (world (Fake.start [])) = (inr a, w) /\
      chat_question response = "why?" /\
      sources_count response =
        match sources a with Some srcs => len srcs | None => 0 end /\
      model response = model_used a) /\
  (exists response',
      fst (chat_with_knowledge_base svc "why?" (Fake.start [])) = Val response' /\
      model response' = None).
Proof.
  intros svc response. split.
  - refine (proj1 (chat_echoes_question_and_counts_sources svc "why?" (Fake.start []))
              response _ _).
    reflexivity.
  - exact (proj2 (chat_echoes_question_and_counts_sources svc "why?" (Fake.start []))
             _ _ _ _ eq_refl eq_refl eq_refl eq_refl).
Defined.

(** ** The sync trigger *)

Lemma split_not_nil : forall sep s, split sep s <> [].
Proof.
  intros sep s. destruct s as [|c s]; simpl; [discriminate|].
  destruct (Ascii.eqb c sep); [discriminate|].
  destruct (split sep s); discriminate.
Qed.

(** No database is configured exactly when the variable is unset or empty. *)
Lemma notion_database_ids_nil :
  forall env,
    notion_database_ids env = [] <-> (env = None \/ env = Some EmptyString).
Proof.
  intros env. unfold notion_database_ids. split.
  - destruct env as [[|c s]|]; auto.
    intros H. exfalso. exact (split_not_nil _ _ H).
  - intros [-> | ->]; reflexivity.
Qed.

(** Whatever the handler returns as a value is the acknowledgment. *)
Lemma sync_database_returns_started :
  forall {World} (svc : Services World) request ids st ack st',
    sync_database svc request ids st = (Val ack, st') -> ack = started request.
Proof.
  intros World svc request ids st ack st' H.
  rewrite sync_database_unfold in H. unfold try_except, bind in H.
  destruct (for_each ids (enqueue svc request) st) as [[[]|e|] st0]; run;
    inversion H; reflexivity.
Qed.

(** C9. With no configured database id (the variable unset or empty), the
    sync trigger queues no task, touches nothing, and still returns the
    acknowledgment it returns when databases are configured. *)
Theorem sync_without_databases_still_acknowledges :
  forall {World} (svc : Services World) request env st,
    notion_database_ids env = [] ->
    sync_database svc request (notion_database_ids env) st =
      (Val (started request), st) /\
    scheduled (trace (snd (sync_database svc request (notion_database_ids env) st)))
      = scheduled (trace st) /\
    forall ids st1 ack st2,
      sync_database svc request ids st1 = (Val ack, st2) ->
      ack = started request.
Proof.
  intros World svc request env st Hnil. rewrite Hnil.
  split; [reflexivity|]. split; [reflexivity|].
  intros ids st1 ack st2. apply sync_database_returns_started.
Qed.

Lemma sync_without_databases_still_acknowledges_witness :
  let svc := Fake.services Fake.healthy in
  let request := {| force_update := false; page_limit := Some 5 |} in
  sync_database svc request (notion_database_ids None) (Fake.start (Fake.database 12)) =
    (Val {| ack_status := "started"; ack_message := "notion synced";
            ack_force_update := false |},
     Fake.start (Fake.database 12)).
Proof.
  intros svc request.
  exact (proj1 (sync_without_databases_still_acknowledges svc request None
                  (Fake.start (Fake.database 12)) eq_refl)).
Defined.

(** ** What a background run may append to the trace *)

Section Background.

Context {World : Type}.
Variable svc : Services World.
Variable P : Event -> Prop.

Hypothesis P_log : forall level msg, P (Log level msg).
Hypothesis P_query : forall query_params r, P (DatabasesQuery query_params r).
Hypothesis P_blocks : forall block_id r, P (BlocksChildrenList block_id r).

Lemma fetch_pages_emits :
  forall fuel database limit all_pages more cursor pages_processed,
    emits P (fetch_pages svc fuel database limit all_pages more cursor pages_processed).
Proof.
  induction fuel as [|fuel IH]; intros database limit all_pages more cursor processed;
    simpl;
    destruct (more && match limit with Some l => processed <? l | None => true end);
    auto with emits.
  - intros st r st' H. inversion H; subst. exists []. rewrite app_nil_r. auto.
  - apply emits_bind; [auto with emits|]. intros response.
    destruct (truthy_int limit &&
              (get_default limit 0 <=? processed + len (get_default (results response) [])));
      auto with emits.
Qed.

Variable force : bool.
Hypothesis P_store :
  forall page_id page_data database r, P (StoreNotionPage page_id page_data database force r).

Lemma sync_page_emits :
  forall database sync_results page,
    emits P (sync_page svc database force sync_results page).
Proof.
  intros database sync_results page. unfold sync_page.
  apply emits_bind; [auto with emits|]. intros blocks_response.
  apply emits_bind; [auto with emits|]. intros pageContent.
  intros st r st' H.
  destruct (store_notion_page svc _ _ database force (world st)) as [x w].
  match type of H with
  | context [StoreNotionPage ?i ?p ?d ?f ?x] => set (ev := StoreNotionPage i p d f x) in *
  end.
  assert (Hev : P ev) by apply P_store.
  destruct (match x with
            | inl e => (sync_results, Some e)
            | inr result => tally result sync_results
            end) as [results' [e|]]; run; inversion H; subst; simpl.
  - rewrite <- app_assoc. eexists. split; [reflexivity|].
    repeat constructor; auto.
  - eexists. split; [reflexivity|]. repeat constructor; auto.
Qed.

Lemma sync_pages_emits :
  forall database all_pages sync_results,
    emits P (sync_pages svc database force sync_results all_pages).
Proof.
  intros database all_pages.
  induction all_pages as [|page rest IH]; intros sync_results; simpl.
  - auto with emits.
  - apply emits_bind; [apply sync_page_emits | auto].
Qed.

Lemma sync_database_background_emits :
  forall fuel database limit,
    emits P (_sync_database_background svc fuel database force limit).
Proof.
  intros fuel database limit. unfold _sync_database_background, logger_info, logger_error.
  apply emits_try_except; [|auto with emits].
  apply emits_bind; [auto with emits|]. intros _.
  apply emits_bind; [apply fetch_pages_emits|]. intros all_pages.
  apply emits_bind; [auto with emits|]. intros _.
  apply emits_bind; [apply sync_pages_emits|]. auto with emits.
Qed.

Lemma run_background_tasks_emits :
  forall fuel tasks,
    Forall (fun task => task_force_update task = force) tasks ->
    emits P (run_background_tasks svc fuel tasks).
Proof.
  intros fuel tasks Htasks. unfold run_background_tasks.
  induction Htasks as [|task tasks Hforce _ IH]; simpl.
  - auto with emits.
  - apply emits_bind; [|auto]. unfold run_task. rewrite Hforce.
    apply sync_database_background_emits.
Qed.

End Background.

(** C4. When queueing does not fail, the sync trigger returns the
    acknowledgment, with [force_update] echoing the request, having touched
    no page: all it did was queue one task per configured database.  Every
    store call the queued tasks later make carries the request's
    [force_update]. *)
Theorem sync_acknowledges_then_forwards_force_update :
  forall {World} (svc : Services World) request ids st,
    (forall task w, fst (add_task svc task w) = inr tt) ->
    exists st' delta,
      sync_database svc request ids st = (Val (started request), st') /\
      ack_force_update (started request) = force_update request /\
      trace st' = (trace st ++ delta)%list /\
      Forall (fun ev => touches_page ev = false) delta /\
      scheduled delta = map (task_for request) ids /\
      forall fuel st1 r st2 delta',
        run_background_tasks svc fuel (scheduled delta) st1 = (r, st2) ->
        trace st2 = (trace st1 ++ delta')%list ->
        Forall (stores_with (force_update request)) delta'.
Proof.
  intros World svc request ids st Hadd.
  destruct (for_each_enqueue_total svc request Hadd ids st) as [st0 [E Ht]].
  exists st0, (map (fun database_id => AddTask (task_for request database_id) (inr tt)) ids).
  rewrite scheduled_queued.
  split; [|repeat split; auto].
  - rewrite sync_database_unfold. unfold try_except, bind. rewrite E. reflexivity.
  - apply Forall_forall. intros ev Hin. apply in_map_iff in Hin.
    destruct Hin as [database_id [<- _]]. reflexivity.
  - intros fuel st1 r st2 delta' Hrun T.
    assert (Hem : emits (stores_with (force_update request))
                    (run_background_tasks svc fuel (map (task_for request) ids))).
    { apply run_background_tasks_emits with (force := force_update request);
        simpl; auto.
      apply Forall_forall. intros task Hin. apply in_map_iff in Hin.
      destruct Hin as [database_id [<- _]]. reflexivity. }
    destruct (Hem _ _ _ Hrun) as [d [T' Hd]].
    rewrite T' in T. apply app_inv_head in T. subst. assumption.
Qed.

(** ** Pagination *)

Lemma len_app {A} (l1 l2 : list A) : len (l1 ++ l2)%list = len l1 + len l2.
Proof. unfold len. rewrite length_app. lia. Qed.

Lemma len_nonneg {A} (l : list A) : 0 <= len l.
Proof. unfold len. lia. Qed.

Section Pagination.

Context {World : Type}.
Variable svc : Services World.
Variable database : string.
Variable limit : Z.

Hypothesis source_paginates : paginates svc.

(** The loop, entered with [pages_processed] pages below the limit and
    enough fuel for the pages still missing, returns; it stops at the limit
    or when the source says there is no more. *)
Lemma fetch_pages_limited :
  forall fuel all_pages more cursor pages_processed st,
    0 <= pages_processed <= limit ->
    (more = true -> (Z.to_nat (limit - pages_processed) <= fuel)%nat) ->
    exists pages st' delta,
      fetch_pages svc fuel database (Some limit) all_pages more cursor
        pages_processed st = (Val (all_pages ++ pages)%list, st') /\
      trace st' = (trace st ++ delta)%list /\
      pages = fetched delta /\
      batch_sizes_ok limit pages_processed delta /\
      cursors_ok cursor delta /\
      (pages_processed + len pages = limit \/
       (pages_processed + len pages < limit /\ more_after more delta = false)).
Proof.
  induction fuel as [|fuel IH];
    intros all_pages more cursor processed st Hrange Hfuel.
  - (* no fuel: the loop condition must be false *)
    exists [], st, []. simpl.
    destruct more; simpl.
    + specialize (Hfuel eq_refl).
      assert (processed = limit) by lia. subst.
      rewrite Z.ltb_irrefl, !app_nil_r. repeat split; auto.
      left. unfold len. simpl. lia.
    + rewrite !app_nil_r. repeat split; auto. unfold len. simpl.
      destruct (Z.eq_dec processed limit); [left | right]; lia.
  - simpl. destruct (more && (processed <? limit)) eqn:Hcond.
    + apply andb_prop in Hcond. destruct Hcond as [-> Hlt].
      apply Z.ltb_lt in Hlt.
      assert (Hnz : (limit =? 0) = false) by (apply Z.eqb_neq; lia).
      rewrite Hnz. simpl.
      set (query_params :=
             {| database_id := database;
                page_size := Z.min 100 (limit - processed);
                start_cursor := if truthy_str cursor then cursor else None |}).
      destruct (source_paginates query_params (world st)) as [response [w [Hq [Hle Hmore]]]];
        [simpl; lia|].
      simpl in Hle.
      unfold bind at 1, invoke. rewrite Hq.
      set (pages := get_default (results response) []) in *.
      pose proof (len_nonneg pages) as Hpos.
      destruct (limit <=? processed + len pages) eqn:Hdone.
      * apply Z.leb_le in Hdone.
        exists pages. eexists. exists [DatabasesQuery query_params (inr response)].
        simpl. fold pages. rewrite app_nil_r.
        repeat split; auto. left. lia.
      * apply Z.leb_gt in Hdone.
        edestruct (IH (all_pages ++ pages)%list
                      (get_default (has_more response) false)
                      (next_cursor response) (processed + len pages))
          as [rest [st' [delta [Hrun [T [Hrest [Hsizes [Hcur Hstop]]]]]]]];
          [lia | | ].
        { intros Hm. specialize (Hmore Hm). specialize (Hfuel eq_refl). lia. }
        exists (pages ++ rest)%list, st',
          (DatabasesQuery query_params (inr response) :: delta).
        rewrite app_assoc. split; [exact Hrun|].
        split; [rewrite T; simpl; rewrite <- app_assoc; reflexivity|].
        simpl. fold pages. rewrite <- Hrest.
        split; [reflexivity|]. split; [auto|]. split; [auto|].
        rewrite len_app. rewrite Z.add_assoc. exact Hstop.
    + exists [], st, []. simpl. rewrite !app_nil_r. repeat split; auto.
      unfold len. simpl. destruct more; simpl in Hcond.
      * apply Z.ltb_ge in Hcond. left. lia.
      * destruct (Z.eq_dec processed limit); [left | right]; lia.
Qed.

End Pagination.

(** C2. With a page limit of 0 no query is issued and no page is fetched.
    With a page limit of [limit] and a source that answers its queries
    page by page, the loop returns: every query it issued asked for
    [min(100, remaining quota)] pages, and it fetched exactly [limit] pages,
    or fewer when the source said there were no more. *)
Theorem fetch_pages_respects_page_limit :
  forall {World} (svc : Services World) database st,
    (forall fuel,
        fetch_pages svc fuel database (Some 0) [] true None 0 st = (Val [], st)) /\
    (paginates svc ->
     forall limit fuel,
       0 <= limit ->
       (Z.to_nat limit <= fuel)%nat ->
       exists pages st' delta,
         fetch_pages svc fuel database (Some limit) [] true None 0 st
           = (Val pages, st') /\
         trace st' = (trace st ++ delta)%list /\
         pages = fetched delta /\
         batch_sizes_ok limit 0 delta /\
         cursors_ok None delta /\
         (len pages = limit \/
          (len pages < limit /\ more_after true delta = false))).
Proof.
  intros World svc database st. split.
  - intros [|fuel]; reflexivity.
  - intros Hsrc limit fuel Hlimit Hfuel.
    destruct (fetch_pages_limited svc database limit Hsrc fuel [] true None 0 st)
      as [pages [st' [delta H]]]; [lia | rewrite Z.sub_0_r; auto |].
    exists pages, st', delta. exact H.
Qed.

(** The in-memory source answers page by page. *)
Lemma Fake_paginates : forall script, paginates (Fake.services script).
Proof.
  intros script query_params pending Hsize. simpl. unfold Fake.query.
  set (n := Z.to_nat (page_size query_params)).
  eexists. eexists. split; [reflexivity|]. simpl.
  assert (Hlen : (length (firstn n pending) <= n)%nat) by apply firstn_le_length.
  split; [unfold len; lia|].
  intros Hmore. unfold len. rewrite length_firstn.
  destruct (skipn n pending) as [|p rest] eqn:Hskip; [discriminate|].
  assert (length (skipn n pending) = length pending - n)%nat by apply length_skipn.
  rewrite Hskip in H. simpl in H. lia.
Qed.

Lemma fetch_pages_respects_page_limit_witness :
  exists pages st' delta,
    fetch_pages (Fake.services Fake.healthy) 5 "db" (Some 5) [] true None 0
      (Fake.start (Fake.database 12)) = (Val pages, st') /\
    trace st' = (trace (Fake.start (Fake.database 12)) ++ delta)%list /\
    pages = fetched delta /\
    batch_sizes_ok 5 0 delta /\
    cursors_ok None delta /\
    (len pages = 5 \/ (len pages < 5 /\ more_after true delta = false)).
Proof.
  apply (proj2 (fetch_pages_respects_page_limit (Fake.services Fake.healthy) "db"
                  (Fake.start (Fake.database 12)))
           (Fake_paginates Fake.healthy) 5 5%nat); lia.
Defined.

(** A limit of 250 against 300 pages: three queries, of 100, 100 and 50. *)
Example fetch_250_of_300 :
  let (r, st') :=
    fetch_pages (Fake.services Fake.healthy) 250 "db" (Some 250) [] true None 0
      (Fake.start (Fake.database 300)) in
  r = Val (firstn 250 (Fake.database 300)) /\
  query_sizes (trace st') = [100; 100; 50].
Proof. vm_compute. split; reflexivity. Qed.

Lemma firstn_add_skipn {A} (n m : nat) (l : list A) :
  firstn (n + m) l = (firstn n l ++ firstn m (skipn n l))%list.
Proof.
  revert l. induction n as [|n IH]; intros l; [reflexivity|].
  destruct l as [|x l]; simpl; [destruct m; reflexivity|].
  rewrite IH. reflexivity.
Qed.

(** Against the in-memory source the loop returns the first [limit] pages
    of the database: exactly [limit] of them when that many are available. *)
Lemma Fake_fetch_pages :
  forall script database limit fuel all_pages more cursor pages_processed pending evs,
    0 <= pages_processed <= limit ->
    (more = true -> (Z.to_nat (limit - pages_processed) <= fuel)%nat) ->
    (more = false -> pending = []) ->
    fst (fetch_pages (Fake.services script) fuel database (Some limit) all_pages
           more cursor pages_processed (mkState pending evs))
    = Val (all_pages ++ firstn (Z.to_nat (limit - pages_processed)) pending)%list.
Proof.
  intros script database limit.
  induction fuel as [|fuel IH];
    intros all_pages more cursor processed pending evs Hrange Hfuel Hmore.
  - simpl. destruct more; simpl.
    + specialize (Hfuel eq_refl). assert (processed = limit) by lia. subst.
      rewrite Z.ltb_irrefl, Z.sub_diag. simpl. rewrite app_nil_r. reflexivity.
    + rewrite (Hmore eq_refl), firstn_nil, app_nil_r. reflexivity.
  - simpl. destruct (more && (processed <? limit)) eqn:Hcond.
    + apply andb_prop in Hcond. destruct Hcond as [-> Hlt]. apply Z.ltb_lt in Hlt.
      assert (Hnz : (limit =? 0) = false) by (apply Z.eqb_neq; lia).
      rewrite Hnz. simpl. unfold bind at 1, invoke. simpl. unfold Fake.query. simpl.
      set (n := Z.to_nat (Z.min 100 (limit - processed))).
      assert (Hn : (Z.to_nat (limit - processed) =
                    n + (Z.to_nat (limit - processed) - n))%nat) by (unfold n; lia).
      rewrite Hn, firstn_add_skipn.
      assert (Hlen : length (firstn n pending) = Nat.min n (length pending))
        by apply length_firstn.
      assert (Hskip : length (skipn n pending) = (length pending - n)%nat)
        by apply length_skipn.
      destruct (limit <=? processed + len (firstn n pending)) eqn:Hdone.
      * apply Z.leb_le in Hdone. unfold len in Hdone. simpl.
        replace (Z.to_nat (limit - processed) - n)%nat with 0%nat by (unfold n in *; lia).
        simpl. rewrite app_nil_r. reflexivity.
      * apply Z.leb_gt in Hdone. unfold len in Hdone.
        rewrite IH.
        -- rewrite <- app_assoc. do 3 f_equal.
           destruct (Nat.le_gt_cases n (length pending)) as [Hfull | Hshort].
           ++ f_equal. unfold len. unfold n in *. lia.
           ++ destruct (skipn n pending); [|simpl in Hskip; lia].
              rewrite !firstn_nil. reflexivity.
        -- unfold len. lia.
        -- intros Hm. destruct (skipn n pending) eqn:E; [discriminate|].
           specialize (Hfuel eq_refl). simpl in Hskip. unfold len. unfold n in *. lia.
        -- intros Hm. destruct (skipn n pending); [reflexivity | discriminate].
    + simpl. destruct more; simpl in Hcond.
      * apply Z.ltb_ge in Hcond. replace (limit - processed) with 0 by lia.
        simpl. rewrite app_nil_r. reflexivity.
      * rewrite (Hmore eq_refl), firstn_nil, app_nil_r. reflexivity.
Qed.

Corollary Fake_fetches_exactly_limit :
  forall script database limit pending,
    0 <= limit <= len pending ->
    exists pages,
      fst (fetch_pages (Fake.services script) (Z.to_nat limit) database (Some limit)
             [] true None 0 (Fake.start pending)) = Val pages /\
      pages = firstn (Z.to_nat limit) pending /\
      len pages = limit.
Proof.
  intros script database limit pending Hrange. eexists.
  split; [|split; [reflexivity|]].
  - unfold Fake.start. rewrite Fake_fetch_pages; [|lia|intros _; lia|discriminate].
    rewrite Z.sub_0_r. reflexivity.
  - unfold len in *. rewrite length_firstn. lia.
Qed.

(** ** The per-page loop *)

Section Pages.

Context {World : Type}.
Variable svc : Services World.
Variable database : string.
Variable force : bool.

(** What an iteration that completes has gone through. *)
Lemma sync_page_returns_inv :
  forall sync_results page st sync_results' st',
    sync_page svc database force sync_results page st = (Val sync_results', st') ->
    exists blocks w1 pageContent r w2,
      blocks_children_list svc (id page) (world st) = (inr blocks, w1) /\
      extract_blocks svc (get_default (block_results blocks) []) = inr pageContent /\
      store_notion_page svc (id page) (set_content page pageContent) database force w1
        = (r, w2) /\
      world st' = w2 /\
      let listed := BlocksChildrenList (id page) (inr blocks) in
      let stored := StoreNotionPage (id page) (set_content page pageContent)
                      database force r in
      let after := match r with
                   | inl e => (sync_results, Some e)
                   | inr result => tally result sync_results
                   end in
      match snd after with
      | None =>
          sync_results' = fst after /\
          trace st' = (trace st ++ [listed; stored])%list
      | Some e =>
          sync_results' = incr_errors (fst after) /\
          trace st' =
            (trace st ++
             [listed; stored;
              Log ERROR ("Error syncing page " ++ id page ++ ": " ++ str e)])%list
      end.
Proof.
  intros sync_results page st sync_results' st' H.
  unfold sync_page in H. unfold bind at 1, invoke in H.
  destruct (blocks_children_list svc (id page) (world st)) as [[e|blocks] w1] eqn:Hb;
    [discriminate|].
  unfold bind at 1, lift in H.
  destruct (extract_blocks svc (get_default (block_results blocks) []))
    as [e|pageContent] eqn:Hx; [discriminate|].
  cbv beta in H. simpl world in H. simpl trace in H.
  destruct (store_notion_page svc (id (set_content page pageContent))
              (set_content page pageContent) database force w1) as [r w2] eqn:Hstore.
  exists blocks, w1, pageContent, r, w2.
  split; [reflexivity|]. split; [exact Hx|]. split; [exact Hstore|].
  cbv zeta.
  destruct (match r with
            | inl e => (sync_results, Some e)
            | inr result => tally result sync_results
            end) as [results1 [e|]];
    unfold bind, emit, ret, logger_error in H; inversion H; subst; simpl;
    rewrite <- ?app_assoc; repeat split; reflexivity.
Qed.

(** A store call that raises is logged, moves only the error counter, and
    the loop goes on with the pages that follow. *)
Lemma store_failure_is_counted_and_skipped :
  forall sync_results page rest st blocks w1 pageContent e w2,
    blocks_children_list svc (id page) (world st) = (inr blocks, w1) ->
    extract_blocks svc (get_default (block_results blocks) []) = inr pageContent ->
    store_notion_page svc (id page) (set_content page pageContent) database force w1
      = (inl e, w2) ->
    sync_pages svc database force sync_results (page :: rest) st =
    sync_pages svc database force (incr_errors sync_results) rest
      (mkState w2
         (trace st ++
          [BlocksChildrenList (id page) (inr blocks);
           StoreNotionPage (id page) (set_content page pageContent) database force (inl e);
           Log ERROR ("Error syncing page " ++ id page ++ ": " ++ str e)])%list).
Proof.
  intros sync_results page rest st blocks w1 pageContent e w2 Hb Hx Hs.
  simpl. unfold bind at 1. unfold sync_page. unfold bind at 1, invoke. rewrite Hb.
  unfold bind at 1, lift. rewrite Hx. cbv beta. simpl world. simpl trace.
  simpl id at 1. rewrite Hs. run. rewrite <- !app_assoc. reflexivity.
Qed.

End Pages.

(** C8, on a failing input: the store answers one page with status
    "success" and no [chunks_stored] entry.  The success counter is
    incremented first, reading the missing entry then raises, and the
    per-page handler increments the error counter as well: the one page has
    moved two counters, and the outcomes add up to 2 for 1 page processed. *)
Theorem success_without_chunks_is_counted_twice :
  let svc :=
    Fake.services
      (Fake.with_store
         (fun _ => inr {| status := Some "success"; chunks_stored := None |})
         Fake.healthy) in
  let counted_twice :=
    {| success := 1; skipped := 0; errors := 1; total_chunks := 0 |} in
  let (r, st') :=
    sync_pages svc "db" false sync_results_init [Fake.page "1"] (Fake.start []) in
  r = Val counted_twice /\
  ~ at_most_one_incremented sync_results_init counted_twice /\
  outcomes counted_twice = 2 /\
  len [Fake.page "1"] = 1 /\
  trace st' =
    [BlocksChildrenList "1" (inr {| block_results := Some ["paragraph"] |});
     StoreNotionPage "1"
       {| id := "1"; properties := "{}"; content := Some ["paragraph"] |}
       "db" false (inr {| status := Some "success"; chunks_stored := None |});
     Log ERROR "Error syncing page 1: 'chunks_stored'"].
Proof.
  vm_compute. repeat split.
  intros H. unfold at_most_one_incremented in H. simpl in H. lia.
Qed.

(** The sibling paths move one counter each: a "success" result with its
    chunks, a "skipped" result, and a store call that raises. *)
Example well_formed_replies_move_one_counter :
  let run reply :=
    fst (sync_pages (Fake.services (Fake.with_store (fun _ => reply) Fake.healthy))
           "db" false sync_results_init [Fake.page "1"] (Fake.start [])) in
  run (inr (Fake.stored 3))
    = Val {| success := 1; skipped := 0; errors := 0; total_chunks := 3 |} /\
  run (inr {| status := Some "skipped"; chunks_stored := None |})
    = Val {| success := 0; skipped := 1; errors := 0; total_chunks := 0 |} /\
  run (inl (Exception "write failed"))
    = Val {| success := 0; skipped := 0; errors := 1; total_chunks := 0 |}.
Proof. vm_compute. repeat split. Qed.

(** C1, on a failing input: the source lists two pages and the block
    listing of the first one raises.  The exception is not handled per
    page: it ends the run in the outer handler, no store call is made for
    either page, and no counter is reported. *)
Theorem block_listing_failure_aborts_the_batch :
  let svc :=
    Fake.services
      (Fake.with_blocks
         (fun block_id =>
            if String.eqb block_id "1" then inl (Exception "rate limited")
            else inr {| block_results := Some ["paragraph"] |})
         Fake.healthy) in
  let (r, st') :=
    _sync_database_background svc 2 "db" true (Some 2) (Fake.start (Fake.database 2)) in
  r = Val tt /\
  fetched (trace st') = Fake.database 2 /\
  stored_ids (trace st') = [] /\
  trace st' =
    [Log INFO "Starting background sync for database db";
     DatabasesQuery {| database_id := "db"; page_size := 2; start_cursor := None |}
       (inr {| results := Some (Fake.database 2);
               has_more := Some false;
               next_cursor := None |});
     Log INFO "Found 2 pages to sync";
     BlocksChildrenList "1" (inl (Exception "rate limited"));
     Log ERROR "Error in background database sync: rate limited"].
Proof. vm_compute. repeat split. Qed.

(** The sibling path: when it is the store call of the first page that
    raises, the error is counted and the second page is stored. *)
Example store_failure_does_not_abort_the_batch :
  let svc :=
    Fake.services
      (Fake.with_store
         (fun page_id =>
            if String.eqb page_id "1" then inl (Exception "write failed")
            else inr (Fake.stored 3))
         Fake.healthy) in
  let (r, st') :=
    _sync_database_background svc 2 "db" true (Some 2) (Fake.start (Fake.database 2)) in
  r = Val tt /\
  stored_ids (trace st') = ["1"; "2"] /\
  last (trace st') Yield =
    Log INFO
      "Database sync completed: {'success': 1, 'skipped': 0, 'errors': 1, 'total_chunks': 3}".
Proof. vm_compute. repeat split. Qed.

Lemma sync_acknowledges_then_forwards_force_update_witness :
  let svc := Fake.services Fake.healthy in
  let request := {| force_update := false; page_limit := Some 5 |} in
  let st := Fake.start (Fake.database 12) in
  exists st' delta,
    sync_database svc request ["db"] st = (Val (started request), st') /\
    ack_force_update (started request) = false /\
    trace st' = (trace st ++ delta)%list /\
    Forall (fun ev => touches_page ev = false) delta /\
    scheduled delta = map (task_for request) ["db"] /\
    forall fuel st1 r st2 delta',
      run_background_tasks svc fuel (scheduled delta) st1 = (r, st2) ->
      trace st2 = (trace st1 ++ delta')%list ->
      Forall (stores_with false) delta'.
Proof.
  intros svc request st.
  exact (sync_acknowledges_then_forwards_force_update svc request ["db"] st
           (fun _ _ => eq_refl)).
Defined.

Lemma handlers_surface_failures_as_500_witness :
  let down := Fake.with_stats (inl (Exception "db down")) Fake.healthy in
  let full :=
    Fake.with_enqueue
      (fun task => if String.eqb (task_database_id task) "b"
                   then inl (Exception "queue full") else inr tt)
      Fake.healthy in
  let mute := Fake.with_rag (fun _ => inl (Exception "model offline")) Fake.healthy in
  fst (get_vector_db_stats (Fake.services down) (Fake.start []))
    = Raise (HTTPException 500 "db down") /\
  fst (sync_database (Fake.services full) SyncRequest_default ["a"; "b"; "c"]
         (Fake.start []))
    = Raise (HTTPException 500 "queue full") /\
  fst (chat_with_knowledge_base (Fake.services mute) "why?" (Fake.start []))
    = Raise (HTTPException 500 "model offline").
Proof.
  intros down full mute.
  destruct (handlers_surface_failures_as_500 (Fake.services down)) as [Hstats _].
  destruct (handlers_surface_failures_as_500 (Fake.services full)) as [_ [Hsync _]].
  destruct (handlers_surface_failures_as_500 (Fake.services mute)) as [_ [_ Hchat]].
  split; [|split].
  - exact (proj1 (Hstats (Fake.start []) _ _ _
                    (GetStats (inl (Exception "db down"))) (Exception "db down")
                    eq_refl eq_refl (or_introl eq_refl) eq_refl)).
  - exact (proj1 (Hsync SyncRequest_default ["a"; "b"; "c"] (Fake.start []) _ _ _
                    (AddTask (task_for SyncRequest_default "b")
                       (inl (Exception "queue full")))
                    (Exception "queue full")
                    eq_refl eq_refl (or_intror (or_introl eq_refl)) eq_refl)).
  - exact (proj1 (Hchat "why?" (Fake.start []) _ _ _
                    (AnswerQuestion "why?" (inl (Exception "model offline")))
                    (Exception "model offline")
                    eq_refl eq_refl (or_introl eq_refl) eq_refl)).
Defined.

(** * Further properties of the background run *)

Section FetchLoop.

Context {World : Type}.
Variable svc : Services World.
Variable database : string.
Variable limit : option Z.

Lemma page_size_in_bounds :
  forall pages_processed,
    match limit with
    | None => true
    | Some l => pages_processed <? l
    end = true ->
    1 <= Z.min 100 (if truthy_int limit
                    then get_default limit 0 - pages_processed
                    else 100) <= 100.
Proof.
  intros processed Hcond. destruct limit as [l|]; simpl; [|lia].
  apply Z.ltb_lt in Hcond. destruct (l =? 0); simpl; lia.
Qed.

(** Any run of the loop, whatever the source does. *)
Lemma fetch_pages_run :
  forall fuel all_pages more cursor pages_processed st r st',
    fetch_pages svc fuel database limit all_pages more cursor pages_processed st
      = (r, st') ->
    exists delta,
      trace st' = (trace st ++ delta)%list /\
      Forall (is_query_to database) delta /\
      cursors_ok cursor delta /\
      match r with
      | Val pages =>
          pages = (all_pages ++ fetched delta)%list /\
          Forall answered delta /\
          (more_after more delta = false \/
           limit_reached limit (pages_processed + len (fetched delta)))
      | Raise e =>
          exists before query_params,
            delta = (before ++ [DatabasesQuery query_params (inl e)])%list /\
            Forall answered before
      | OutOfFuel => Forall answered delta /\ query_count delta = fuel
      end.
Proof.
  induction fuel as [|fuel IH];
    intros all_pages more cursor processed st r st' H; simpl in H;
    destruct (more && match limit with
                      | Some l => processed <? l
                      | None => true
                      end) eqn:Hcond.
  - inversion H; subst. exists []. rewrite app_nil_r. simpl. auto.
  - inversion H; subst. exists []. rewrite !app_nil_r. simpl.
    repeat split; auto.
    destruct more; [|auto]. simpl in Hcond. right.
    destruct limit as [l|]; [|discriminate]. apply Z.ltb_ge in Hcond.
    exists l. unfold len. simpl. split; [reflexivity | lia].
  - apply andb_prop in Hcond. destruct Hcond as [-> Hcond].
    pose proof (page_size_in_bounds processed Hcond) as Hsize.
    set (query_params :=
           {| database_id := database;
              page_size := Z.min 100 (if truthy_int limit
                                      then get_default limit 0 - processed
                                      else 100);
              start_cursor := if truthy_str cursor then cursor else None |}) in *.
    unfold bind at 1, invoke in H.
    destruct (databases_query svc query_params (world st)) as [[e|response] w].
    + inversion H; subst.
      exists [DatabasesQuery query_params (inl e)].
      split; [reflexivity|].
      split; [constructor; [split; [reflexivity | exact Hsize] | constructor]|].
      split; [simpl; auto|].
      exists [], query_params. auto.
    + set (pages := get_default (results response) []) in *.
      destruct (truthy_int limit && (get_default limit 0 <=? processed + len pages))
        eqn:Hbreak.
      * inversion H; subst.
        exists [DatabasesQuery query_params (inr response)].
        split; [reflexivity|].
        split; [constructor; [split; [reflexivity | exact Hsize] | constructor]|].
        split; [simpl; auto|].
        simpl. fold pages. rewrite app_nil_r.
        split; [reflexivity|]. split; [constructor; [reflexivity | constructor]|].
        right. apply andb_prop in Hbreak. destruct Hbreak as [Ht Hle].
        destruct limit as [l|]; [|discriminate]. simpl in Hle.
        apply Z.leb_le in Hle. exists l. auto.
      * apply IH in H. destruct H as [delta [T [Hq [Hc Hr]]]].
        exists (DatabasesQuery query_params (inr response) :: delta).
        split; [rewrite T; simpl; rewrite <- app_assoc; reflexivity|].
        split; [constructor; [split; [reflexivity | exact Hsize] | assumption]|].
        split; [simpl; auto|].
        destruct r as [result|e|]; simpl; fold pages.
        -- destruct Hr as [-> [Ha Hstop]]. rewrite app_assoc.
           split; [reflexivity|]. split; [constructor; [reflexivity | assumption]|].
           rewrite len_app, Z.add_assoc. exact Hstop.
        -- destruct Hr as [before [q [-> Ha]]].
           exists (DatabasesQuery query_params (inr response) :: before), q.
           split; [reflexivity | constructor; [reflexivity | assumption]].
        -- destruct Hr as [Ha Hn].
           split; [constructor; [reflexivity | assumption] | congruence].
  - inversion H; subst. exists []. rewrite !app_nil_r. simpl.
    repeat split; auto.
    destruct more; [|auto]. simpl in Hcond. right.
    destruct limit as [l|]; [|discriminate]. apply Z.ltb_ge in Hcond.
    exists l. unfold len. simpl. split; [reflexivity | lia].
Qed.

End FetchLoop.

(** ** Observers distribute over concatenated traces *)

Ltac by_events evs :=
  induction evs as [|[level msg| | | |q [e|resp]|b [e|resp]| | | |] evs IH];
  intros; simpl; rewrite ?IH; auto.

Lemma stored_ids_app :
  forall evs evs', stored_ids (evs ++ evs') = (stored_ids evs ++ stored_ids evs')%list.
Proof. intros evs. by_events evs. Qed.

Lemma stored_pages_app :
  forall evs evs', stored_pages (evs ++ evs') = (stored_pages evs ++ stored_pages evs')%list.
Proof. intros evs. by_events evs. Qed.

Lemma listed_ids_app :
  forall evs evs', listed_ids (evs ++ evs') = (listed_ids evs ++ listed_ids evs')%list.
Proof. intros evs. by_events evs. Qed.

Lemma count_stores_app :
  forall p evs evs', count_stores p (evs ++ evs') = count_stores p evs + count_stores p evs'.
Proof. intros p evs. by_events evs; lia. Qed.

Lemma chunks_in_app :
  forall evs evs', chunks_in (evs ++ evs') = chunks_in evs + chunks_in evs'.
Proof. intros evs. by_events evs; lia. Qed.

Lemma error_logs_app :
  forall evs evs', error_logs (evs ++ evs') = error_logs evs + error_logs evs'.
Proof.
  induction evs as [|ev evs IH]; intros evs'; [reflexivity|].
  destruct ev as [[|] msg| | | | | | | | |]; cbn [error_logs app]; rewrite IH; lia.
Qed.

Lemma queries_store_nothing :
  forall database evs,
    Forall (is_query_to database) evs ->
    stored_ids evs = [] /\ listed_ids evs = [].
Proof.
  intros database evs H. induction H as [|ev evs Hev _ [IH1 IH2]]; [auto|].
  destruct ev; simpl in Hev; try contradiction. simpl. auto.
Qed.

(** ** One iteration of the page loop, whatever the collaborators do *)

Section Iteration.

Context {World : Type}.
Variable svc : Services World.
Variable database : string.
Variable force : bool.

Lemma tally_raised_independent :
  forall result sync_results,
    snd (tally result sync_results) = handled (inr result).
Proof.
  intros result sync_results. unfold handled, tally.
  destruct (status result) as [s|]; [|reflexivity].
  destruct (String.eqb s "success"); [destruct (chunks_stored result); reflexivity|].
  destruct (String.eqb s "skipped"); reflexivity.
Qed.

Lemma handled_ends_in_handler :
  forall r, ends_in_handler r = match handled r with Some _ => true | None => false end.
Proof.
  intros [e|result]; [reflexivity|]. unfold handled, tally, ends_in_handler. simpl.
  destruct (status result) as [s|]; [|reflexivity].
  destruct (String.eqb s "success"); simpl; [destruct (chunks_stored result); reflexivity|].
  destruct (String.eqb s "skipped"); reflexivity.
Qed.

(** How one store reply moves the counters. *)
Lemma counted_spec :
  forall r sync_results,
    success (counted r sync_results)
      = success sync_results + one_if (status_is "success" r) /\
    skipped (counted r sync_results)
      = skipped sync_results + one_if (status_is "skipped" r) /\
    errors (counted r sync_results)
      = errors sync_results + one_if (ends_in_handler r) /\
    total_chunks (counted r sync_results)
      = total_chunks sync_results + chunks_of r.
Proof.
  intros [e|result] sync_results; unfold counted, one_if; simpl.
  - repeat split; lia.
  - unfold tally, ends_in_handler, chunks_of. simpl.
    destruct (status result) as [s|]; simpl; [|repeat split; lia].
    destruct (String.eqb s "success") eqn:E1; simpl.
    + apply String.eqb_eq in E1. subst s. simpl.
      destruct (chunks_stored result); simpl; repeat split; lia.
    + destruct (String.eqb s "skipped") eqn:E2; simpl; repeat split; lia.
Qed.

Lemma sync_page_run :
  forall sync_results page st r st',
    sync_page svc database force sync_results page st = (r, st') ->
    exists delta,
      trace st' = (trace st ++ delta)%list /\
      match r with
      | Val sync_results' =>
          exists blocks_response pageContent reply,
            delta = iteration_events database force page blocks_response pageContent reply /\
            extract_blocks svc (get_default (block_results blocks_response) [])
              = inr pageContent /\
            sync_results' = counted reply sync_results
      | Raise e =>
          delta = [BlocksChildrenList (id page) (inl e)] \/
          exists blocks_response,
            delta = [BlocksChildrenList (id page) (inr blocks_response)] /\
            extract_blocks svc (get_default (block_results blocks_response) []) = inl e
      | OutOfFuel => False
      end.
Proof.
  intros sync_results page st r st' H.
  unfold sync_page in H. unfold bind at 1, invoke in H.
  destruct (blocks_children_list svc (id page) (world st)) as [[e|blocks] w1].
  { inversion H; subst. eexists. split; [reflexivity|]. left. reflexivity. }
  unfold bind at 1, lift in H.
  destruct (extract_blocks svc (get_default (block_results blocks) []))
    as [e|pageContent] eqn:Hx.
  { inversion H; subst. eexists. split; [reflexivity|]. right. eauto. }
  cbv beta in H. simpl world in H. simpl trace in H.
  destruct (store_notion_page svc (id (set_content page pageContent))
              (set_content page pageContent) database force w1) as [reply w2].
  assert (Hsnd : snd (match reply with
                      | inl e => (sync_results, Some e)
                      | inr result => tally result sync_results
                      end) = handled reply).
  { destruct reply; [reflexivity | apply tally_raised_independent]. }
  assert (Hcounted : counted reply sync_results =
                     match handled reply with
                     | None => fst (match reply with
                                    | inl e => (sync_results, Some e)
                                    | inr result => tally result sync_results
                                    end)
                     | Some _ => incr_errors
                                   (fst (match reply with
                                         | inl e => (sync_results, Some e)
                                         | inr result => tally result sync_results
                                         end))
                     end).
  { unfold counted. cbv zeta. rewrite Hsnd. reflexivity. }
  unfold iteration_events.
  destruct (match reply with
            | inl e => (sync_results, Some e)
            | inr result => tally result sync_results
            end) as [results1 raised].
  simpl in Hsnd. subst raised. simpl fst in Hcounted.
  destruct (handled reply) as [e|] eqn:Hh;
    unfold bind, emit, ret, logger_error in H; inversion H; subst; simpl;
    rewrite <- ?app_assoc; (eexists; split; [reflexivity|]);
    exists blocks, pageContent, reply; rewrite Hh; auto.
Qed.

End Iteration.

(** ** The page loop as a whole *)

Section PageLoop.

Context {World : Type}.
Variable svc : Services World.
Variable database : string.
Variable force : bool.

Lemma iteration_events_observed :
  forall page blocks_response pageContent reply,
    extract_blocks svc (get_default (block_results blocks_response) []) = inr pageContent ->
    let evs := iteration_events database force page blocks_response pageContent reply in
    stored_pages evs = [set_content page pageContent] /\
    stored_ids evs = [id page] /\
    listed_ids evs = [id page] /\
    (forall p, count_stores p evs = one_if (p reply)) /\
    chunks_in evs = chunks_of reply /\
    error_logs evs = one_if (ends_in_handler reply) /\
    Forall (store_call_ok database force) evs /\
    Forall page_loop_event evs /\
    (forall listed rest,
        content_follows_blocks svc listed (evs ++ rest) <->
        content_follows_blocks svc (get_default (block_results blocks_response) []) rest).
Proof.
  intros page blocks pageContent reply Hx evs. subst evs.
  unfold iteration_events. rewrite handled_ends_in_handler.
  destruct (handled reply) as [e|];
    cbn [stored_pages stored_ids listed_ids count_stores chunks_in error_logs one_if app].
  all: split; [reflexivity|]; split; [reflexivity|]; split; [reflexivity|].
  all: split; [intros p; unfold one_if; lia|].
  all: split; [lia|]; split; [lia|].
  all: split; [repeat constructor; simpl; auto; discriminate|].
  all: split; [repeat constructor|].
  all: intros listed rest; cbn [content_follows_blocks content set_content];
    rewrite Hx; tauto.
Qed.

Lemma sync_pages_run :
  forall all_pages sync_results st r st',
    sync_pages svc database force sync_results all_pages st = (r, st') ->
    exists delta,
      trace st' = (trace st ++ delta)%list /\
      Forall (store_call_ok database force) delta /\
      Forall page_loop_event delta /\
      (forall listed, content_follows_blocks svc listed delta) /\
      error_logs delta = count_stores ends_in_handler delta /\
      match r with
      | Val sync_results' =>
          map metadata (stored_pages delta) = map metadata all_pages /\
          stored_ids delta = map id all_pages /\
          listed_ids delta = map id all_pages /\
          success sync_results'
            = success sync_results + count_stores (status_is "success") delta /\
          skipped sync_results'
            = skipped sync_results + count_stores (status_is "skipped") delta /\
          errors sync_results'
            = errors sync_results + count_stores ends_in_handler delta /\
          total_chunks sync_results' = total_chunks sync_results + chunks_in delta
      | Raise e =>
          exists done page rest,
            all_pages = (done ++ page :: rest)%list /\
            stored_ids delta = map id done /\
            listed_ids delta = map id (done ++ [page])
      | OutOfFuel => False
      end.
Proof.
  induction all_pages as [|page rest IH]; intros sync_results st r st' H; simpl in H.
  - inversion H; subst. exists []. rewrite app_nil_r. simpl.
    repeat split; auto; lia.
  - unfold bind in H.
    destruct (sync_page svc database force sync_results page st) as [r1 st1] eqn:Hpage.
    apply sync_page_run in Hpage. destruct Hpage as [d1 [T1 Hr1]].
    destruct r1 as [results1|e|]; [| |contradiction].
    + destruct Hr1 as [blocks [pageContent [reply [-> [Hx ->]]]]].
      destruct (iteration_events_observed page blocks pageContent reply Hx)
        as [Hsp [Hsi [Hli [Hcs [Hch [Hel [Hok [Hnq Hcf]]]]]]]].
      destruct (counted_spec reply sync_results) as [Hs [Hk [He Ht]]].
      apply IH in H. destruct H as [d2 [T2 [Hok2 [Hnq2 [Hcf2 [Hel2 Hr]]]]]].
      exists (iteration_events database force page blocks pageContent reply ++ d2)%list.
      rewrite T2, T1, app_assoc. split; [reflexivity|].
      split; [apply Forall_app; auto|]. split; [apply Forall_app; auto|].
      split; [intros listed; apply Hcf; apply Hcf2|].
      rewrite error_logs_app, !count_stores_app, Hel, Hel2, Hcs.
      split; [reflexivity|].
      destruct r as [results'|e|]; [| |contradiction].
      * rewrite stored_pages_app, stored_ids_app, listed_ids_app,
          ?count_stores_app, chunks_in_app, Hsp, Hsi, Hli, ?Hcs, Hch.
        destruct Hr as [Hm [Hi [Hl [Hs' [Hk' [He' Ht']]]]]].
        simpl. rewrite Hm, Hi, Hl.
        repeat split; try reflexivity; lia.
      * destruct Hr as [done [page' [rest' [-> [Hi Hl]]]]].
        exists (page :: done), page', rest'.
        rewrite stored_ids_app, listed_ids_app, Hsi, Hli, Hi, Hl. auto.
    + inversion H; subst.
      exists d1. split; [exact T1|].
      assert (Hd1 : d1 = [BlocksChildrenList (id page) (inl e)] \/
                    exists blocks, d1 = [BlocksChildrenList (id page) (inr blocks)]).
      { destruct Hr1 as [-> | [blocks [-> _]]]; eauto. }
      clear Hr1.
      destruct Hd1 as [-> | [blocks ->]]; simpl;
        (repeat split; auto; try (repeat constructor));
        exists [], page, rest; auto.
Qed.

End PageLoop.

(** ** The background run, phase by phase *)

Section BackgroundRun.

Context {World : Type}.
Variable svc : Services World.

Lemma background_run_cases :
  forall fuel database force limit st r st',
    _sync_database_background svc fuel database force limit st = (r, st') ->
    exists rf stf,
      fetch_pages svc fuel database limit [] true None 0
        (mkState (world st) (trace st ++ [log_starting database])) = (rf, stf) /\
      match rf with
      | OutOfFuel => r = OutOfFuel /\ st' = stf
      | Raise e =>
          r = Val tt /\ st' = mkState (world stf) (trace stf ++ [log_aborted e])
      | Val all_pages =>
          exists rp stp,
            sync_pages svc database force sync_results_init all_pages
              (mkState (world stf) (trace stf ++ [log_found all_pages])) = (rp, stp) /\
            match rp with
            | Val sync_results =>
                r = Val tt /\
                st' = mkState (world stp) (trace stp ++ [log_completed sync_results])
            | Raise e =>
                r = Val tt /\ st' = mkState (world stp) (trace stp ++ [log_aborted e])
            | OutOfFuel => r = OutOfFuel /\ st' = stp
            end
      end.
Proof.
  intros fuel database force limit st r st' H.
  unfold _sync_database_background, try_except in H.
  unfold bind at 1, logger_info at 1, emit in H.
  unfold bind at 1 in H.
  destruct (fetch_pages svc fuel database limit [] true None 0
              (mkState (world st)
                 (trace st ++
                  [Log INFO ("Starting background sync for database " ++ database)])))
    as [rf stf] eqn:Hf.
  exists rf, stf. split; [exact Hf|].
  destruct rf as [all_pages|e|].
  - unfold bind at 1, logger_info at 1, emit in H. unfold bind at 1 in H.
    destruct (sync_pages svc database force sync_results_init all_pages
                (mkState (world stf)
                   (trace stf ++
                    [Log INFO ("Found " ++ str_of_int (len all_pages) ++ " pages to sync")])))
      as [rp stp] eqn:Hp.
    exists rp, stp. split; [exact Hp|].
    destruct rp as [sync_results|e|];
      unfold logger_info, logger_error, emit in H; inversion H; subst; auto.
  - unfold logger_error, emit in H. inversion H; subst. auto.
  - inversion H; subst. auto.
Qed.

(** X1. No exception escapes the background task, whatever the
    collaborators do.  The run goes on for ever only if its fetch loop does;
    otherwise it returns normally, and the last thing it did was to log
    either the completed counters or the error that ended the run.  In
    particular it returns whenever there is a page limit and the source
    answers its queries page by page, whatever the block listing, the
    extraction and the store then do. *)
Theorem background_sync_never_raises :
  forall fuel database force limit st,
    let fetching :=
      fetch_pages svc fuel database limit [] true None 0
        (mkState (world st) (trace st ++ [log_starting database])) in
    let run := _sync_database_background svc fuel database force limit st in
    (forall e, fst run <> Raise e) /\
    (fst run = OutOfFuel <-> fst fetching = OutOfFuel) /\
    (fst run = Val tt ->
     (exists sync_results, last (trace (snd run)) Yield = log_completed sync_results) \/
     (exists e, last (trace (snd run)) Yield = log_aborted e)) /\
    (paginates svc ->
     forall l, limit = Some l -> (Z.to_nat l <= fuel)%nat -> fst run = Val tt).
Proof.
  intros fuel database force limit st fetching run.
  assert (Hcases :
            (forall e, fst run <> Raise e) /\
            (fst run = OutOfFuel <-> fst fetching = OutOfFuel) /\
            (fst run = Val tt ->
             (exists sync_results,
                 last (trace (snd run)) Yield = log_completed sync_results) \/
             (exists e, last (trace (snd run)) Yield = log_aborted e))).
  { subst run fetching.
    destruct (_sync_database_background svc fuel database force limit st)
      as [r st'] eqn:H.
    apply background_run_cases in H. destruct H as [rf [stf [Hf H]]].
    rewrite Hf. simpl.
    destruct rf as [all_pages|e|].
    - destruct H as [rp [stp [Hp H]]].
      pose proof Hp as Hloop. apply sync_pages_run in Hloop.
      destruct Hloop as [dp [_ [_ [_ [_ [_ Hrp]]]]]].
      destruct rp as [sync_results|e|]; [| |contradiction];
        destruct H as [-> ->]; simpl;
        (split; [discriminate|]);
        (split; [split; discriminate|]);
        intros _; rewrite last_last; eauto.
    - destruct H as [-> ->]. simpl. split; [discriminate|].
      split; [split; discriminate|]. intros _. rewrite last_last. eauto.
    - destruct H as [-> ->]. split; [discriminate|].
      split; [split; reflexivity|]. discriminate. }
  destruct Hcases as [Hraise [Hfuel Hlast]].
  repeat (split; [assumption|]).
  intros Hsrc l -> Hl.
  assert (Hfetch : exists pages, fst fetching = Val pages).
  { subst fetching. destruct (Z_le_gt_dec 0 l) as [Hpos | Hneg].
    - destruct (fetch_pages_limited svc database l Hsrc fuel [] true None 0
                  (mkState (world st) (trace st ++ [log_starting database])))
        as [pages [st1 [delta [Hrun _]]]]; [lia | rewrite Z.sub_0_r; auto |].
      rewrite Hrun. simpl. eauto.
    - exists []. destruct fuel; simpl;
        replace (0 <? l) with false by (symmetry; apply Z.ltb_ge; lia);
        reflexivity. }
  destruct Hfetch as [pages Hpages].
  destruct (fst run) as [[]|e|] eqn:Hr.
  - reflexivity.
  - elim (Hraise e). reflexivity.
  - destruct Hfuel as [Hfuel _]. rewrite Hfuel in Hpages by reflexivity. discriminate.
Qed.

End BackgroundRun.

(** ** What the phases leave in the trace *)

Lemma fetched_app :
  forall evs evs', fetched (evs ++ evs') = (fetched evs ++ fetched evs')%list.
Proof. intros evs. by_events evs. rewrite <- app_assoc. reflexivity. Qed.

Lemma queries_count_nothing :
  forall database evs,
    Forall (is_query_to database) evs ->
    stored_pages evs = [] /\ chunks_in evs = 0 /\ forall p, count_stores p evs = 0.
Proof.
  intros database evs H. induction H as [|ev evs Hev _ [IH1 [IH2 IH3]]]; [auto|].
  destruct ev; simpl in Hev; try contradiction. simpl. auto.
Qed.

Lemma page_loop_fetches_nothing :
  forall evs, Forall page_loop_event evs -> fetched evs = [].
Proof.
  intros evs H. induction H as [|ev evs Hev _ IH]; [reflexivity|].
  destruct ev; simpl in Hev; try contradiction; simpl; assumption.
Qed.

Lemma answered_not_failed :
  forall evs query_params e,
    Forall answered evs -> ~ In (DatabasesQuery query_params (inl e)) evs.
Proof.
  intros evs q e H Hin. rewrite Forall_forall in H. apply H in Hin. discriminate.
Qed.

Lemma page_loop_no_query :
  forall evs query_params r,
    Forall page_loop_event evs -> ~ In (DatabasesQuery query_params r) evs.
Proof.
  intros evs q r H Hin. rewrite Forall_forall in H. apply H in Hin. exact Hin.
Qed.

Lemma page_loop_no_info :
  forall evs msg, Forall page_loop_event evs -> ~ In (Log INFO msg) evs.
Proof.
  intros evs msg H Hin. rewrite Forall_forall in H. apply H in Hin. exact Hin.
Qed.

Lemma queries_no_log :
  forall database evs level msg,
    Forall (is_query_to database) evs -> ~ In (Log level msg) evs.
Proof.
  intros database evs level msg H Hin. rewrite Forall_forall in H.
  apply H in Hin. exact Hin.
Qed.

Section RunFacts.

Context {World : Type}.
Variable svc : Services World.

(** X2. If a source query raises during a background run, the run ends in
    the outer handler with that exception logged, and the pages fetched by
    the earlier queries are dropped: no block listing and no store call is
    made. *)
Theorem failed_query_discards_the_batch :
  forall fuel database force limit st r st' delta query_params e,
    _sync_database_background svc fuel database force limit st = (r, st') ->
    trace st' = (trace st ++ delta)%list ->
    In (DatabasesQuery query_params (inl e)) delta ->
    r = Val tt /\
    stored_ids delta = [] /\
    listed_ids delta = [] /\
    last delta Yield = log_aborted e.
Proof.
  intros fuel database force limit st r st' delta q e H T Hin.
  apply background_run_cases in H. destruct H as [rf [stf [Hf H]]].
  apply fetch_pages_run in Hf. destruct Hf as [df [Tf [Hq [_ Hrf]]]].
  simpl in Tf.
  destruct rf as [all_pages|e'|].
  - exfalso. destruct Hrf as [_ [Ha _]].
    destruct H as [rp [stp [Hp H]]].
    apply sync_pages_run in Hp. destruct Hp as [dp [Tp [_ [Hloop _]]]].
    simpl in Tp.
    assert (Hd : exists tail msg, delta =
                   (log_starting database :: df ++ log_found all_pages :: dp ++ tail)%list
                   /\ (tail = [] \/ exists level, tail = [Log level msg])).
    { destruct rp as [sr|e'|]; destruct H as [_ ->]; simpl in T;
        rewrite Tp, Tf in T; repeat rewrite <- app_assoc in T;
        apply app_inv_head in T; subst delta; simpl.
      - eexists. eexists. split; [reflexivity|]. right. eexists. reflexivity.
      - eexists. eexists. split; [reflexivity|]. right. eexists. reflexivity.
      - exists [], EmptyString. rewrite app_nil_r. auto. }
    destruct Hd as [tail [msg [-> Htail]]].
    destruct Hin as [Hin | Hin]; [discriminate|].
    apply in_app_or in Hin. destruct Hin as [Hin | [Hin | Hin]].
    + exact (answered_not_failed _ _ _ Ha Hin).
    + discriminate.
    + apply in_app_or in Hin. destruct Hin as [Hin | Hin].
      * exact (page_loop_no_query _ _ _ Hloop Hin).
      * destruct Htail as [-> | [level ->]]; [destruct Hin|].
        destruct Hin as [Hin | []]. discriminate.
  - destruct Hrf as [before [q' [-> Ha]]]. destruct H as [-> ->].
    simpl in T. rewrite Tf in T. repeat rewrite <- app_assoc in T.
    apply app_inv_head in T.
    assert (Hd : delta =
                 ((log_starting database :: before ++ [DatabasesQuery q' (inl e')])
                  ++ [log_aborted e'])%list).
    { rewrite <- T. simpl. rewrite <- app_assoc. reflexivity. }
    clear T. subst delta.
    assert (e = e').
    { apply in_app_or in Hin. destruct Hin as [[Hin | Hin] | [Hin | []]];
        try discriminate.
      apply in_app_or in Hin. destruct Hin as [Hin | [Hin | []]].
      - elim (answered_not_failed _ _ _ Ha Hin).
      - inversion Hin. reflexivity. }
    subst e'.
    destruct (queries_store_nothing _ _ Hq) as [Hs Hl].
    split; [reflexivity|].
    rewrite stored_ids_app, listed_ids_app. unfold log_starting, log_aborted.
    cbn [stored_ids listed_ids]. rewrite Hs, Hl.
    split; [reflexivity|]. split; [reflexivity|]. apply last_last.
  - exfalso. destruct Hrf as [Ha _]. destruct H as [-> ->].
    rewrite Tf in T. repeat rewrite <- app_assoc in T.
    apply app_inv_head in T. subst delta. simpl in Hin.
    destruct Hin as [Hin | Hin]; [discriminate|].
    exact (answered_not_failed _ _ _ Ha Hin).
Qed.

End RunFacts.

(** ** The fetch loop against an arbitrary source *)

Section FetchFacts.

Context {World : Type}.
Variable svc : Services World.

(** X3. Whatever the source answers, every query of the fetch loop is for
    the database being synced and asks for between 1 and 100 pages, and it
    carries as [start_cursor] the non-empty [next_cursor] of the previous
    answer (none on the first query); when there is nothing to fetch (the
    limit is already reached) no query is issued at all. *)
Theorem fetch_pages_queries_within_bounds :
  forall fuel database limit all_pages more cursor pages_processed st r st' delta,
    fetch_pages svc fuel database limit all_pages more cursor pages_processed st
      = (r, st') ->
    trace st' = (trace st ++ delta)%list ->
    Forall (is_query_to database) delta /\
    cursors_ok cursor delta /\
    (more = false \/ limit_reached limit pages_processed ->
     delta = [] /\ r = Val all_pages).
Proof.
  intros fuel database limit all_pages more cursor processed st r st' delta H T.
  pose proof H as Hrun. apply fetch_pages_run in Hrun.
  destruct Hrun as [d [T' [Hq [Hc _]]]].
  rewrite T' in T. apply app_inv_head in T. subst d.
  split; [assumption|]. split; [assumption|].
  intros Hstop.
  assert (Hcond : more && match limit with
                          | Some l => processed <? l
                          | None => true
                          end = false).
  { destruct Hstop as [-> | [l [-> Hle]]]; [reflexivity|].
    apply andb_false_intro2. apply Z.ltb_ge. exact Hle. }
  destruct fuel; simpl in H; rewrite Hcond in H; inversion H; subst;
    (split; [|reflexivity]);
    rewrite <- (app_nil_r (trace st')) in T' at 1;
    apply app_inv_head in T'; auto.
Qed.

(** X4. When the fetch loop returns, it returns every page of every answer,
    in the order received, after the pages it started with: nothing is
    dropped or cut to the limit.  It returns only once the source has said
    there is no more, or the limit has been reached. *)
Theorem fetch_pages_keeps_every_page :
  forall fuel database limit all_pages more cursor pages_processed st pages st' delta,
    fetch_pages svc fuel database limit all_pages more cursor pages_processed st
      = (Val pages, st') ->
    trace st' = (trace st ++ delta)%list ->
    pages = (all_pages ++ fetched delta)%list /\
    Forall answered delta /\
    (more_after more delta = false \/
     limit_reached limit (pages_processed + len (fetched delta))).
Proof.
  intros fuel database limit all_pages more cursor processed st pages st' delta H T.
  apply fetch_pages_run in H. destruct H as [d [T' [_ [_ Hr]]]].
  rewrite T' in T. apply app_inv_head in T. subst d. exact Hr.
Qed.

Lemma fetch_pages_unlimited_sizes :
  forall fuel database all_pages more cursor pages_processed st r st',
    fetch_pages svc fuel database None all_pages more cursor pages_processed st
      = (r, st') ->
    exists delta,
      trace st' = (trace st ++ delta)%list /\ Forall (asks_for 100) delta.
Proof.
  induction fuel as [|fuel IH];
    intros database all_pages more cursor processed st r st' H; simpl in H;
    destruct more; simpl in H;
    try (inversion H; subst; exists []; rewrite app_nil_r; auto; fail).
  unfold bind at 1, invoke in H.
  match type of H with
  | context [databases_query svc ?q _] => set (query_params := q) in *
  end.
  destruct (databases_query svc query_params (world st)) as [[e|response] w].
  - inversion H; subst. exists [DatabasesQuery query_params (inl e)].
    split; [reflexivity|]. repeat constructor.
  - apply IH in H. destruct H as [delta [T Hs]].
    exists (DatabasesQuery query_params (inr response) :: delta).
    split; [rewrite T; simpl; rewrite <- app_assoc; reflexivity|].
    constructor; [reflexivity | assumption].
Qed.

(** X5. Without a page limit every query asks for 100 pages, and the loop
    returns only after the source has said there is no more. *)
Theorem fetch_without_limit_asks_for_100 :
  forall fuel database all_pages more cursor pages_processed st r st' delta,
    fetch_pages svc fuel database None all_pages more cursor pages_processed st
      = (r, st') ->
    trace st' = (trace st ++ delta)%list ->
    Forall (asks_for 100) delta /\
    forall pages, r = Val pages -> more_after more delta = false.
Proof.
  intros fuel database all_pages more cursor processed st r st' delta H T.
  pose proof H as Hrun. apply fetch_pages_unlimited_sizes in Hrun.
  destruct Hrun as [d [T' Hs]].
  rewrite T' in T. apply app_inv_head in T. subst d.
  split; [assumption|]. intros pages ->.
  apply fetch_pages_run in H. destruct H as [d [T'' [_ [_ [_ [_ Hstop]]]]]].
  rewrite T'' in T'. apply app_inv_head in T'. subst d.
  destruct Hstop as [Hm | [l [Hl _]]]; [assumption | discriminate].
Qed.

Lemma fetch_pages_stalls :
  stalls svc ->
  forall fuel database limit all_pages cursor pages_processed st,
    below_limit limit pages_processed ->
    fst (fetch_pages svc fuel database limit all_pages true cursor pages_processed st)
      = OutOfFuel.
Proof.
  intros Hstall. induction fuel as [|fuel IH];
    intros database limit all_pages cursor processed st Hbelow; simpl.
  - destruct limit as [l|]; simpl in *; [|reflexivity].
    apply Z.ltb_lt in Hbelow. rewrite Hbelow. reflexivity.
  - assert (Hcond : match limit with
                    | Some l => processed <? l
                    | None => true
                    end = true).
    { destruct limit as [l|]; [apply Z.ltb_lt; exact Hbelow | reflexivity]. }
    rewrite Hcond.
    unfold bind at 1, invoke.
    match goal with
    | |- context [databases_query svc ?q _] => set (query_params := q)
    end.
    destruct (Hstall query_params (world st)) as [response [w [Hq [Hres Hmore]]]].
    rewrite Hq, Hres, Hmore. unfold len. simpl length. rewrite Z.add_0_r.
    assert (Hbreak : truthy_int limit && (get_default limit 0 <=? processed) = false).
    { destruct limit as [l|]; [|reflexivity]. simpl in *.
      apply andb_false_intro2. apply Z.leb_gt. exact Hbelow. }
    rewrite Hbreak. rewrite app_nil_r. apply IH. exact Hbelow.
Qed.

(** X6. The fetch loop has no bound of its own: against a source that keeps
    answering with no page and [has_more] set, the background run never gets
    past fetching, however many iterations it is given (unless the limit is
    0 or negative, in which case the loop is not entered). *)
Theorem sync_never_completes_on_a_stalled_source :
  stalls svc ->
  forall fuel database force limit st,
    below_limit limit 0 ->
    fst (_sync_database_background svc fuel database force limit st) = OutOfFuel.
Proof.
  intros Hstall fuel database force limit st Hbelow.
  destruct (_sync_database_background svc fuel database force limit st) as [r st'] eqn:H.
  apply background_run_cases in H. destruct H as [rf [stf [Hf H]]].
  pose proof (fetch_pages_stalls Hstall fuel database limit [] None 0
                (mkState (world st) (trace st ++ [log_starting database])) Hbelow) as Hs.
  rewrite Hf in Hs. simpl in Hs. subst rf. destruct H as [-> _]. reflexivity.
Qed.

End FetchFacts.

(** ** The page loop against arbitrary collaborators *)

Section PageFacts.

Context {World : Type}.
Variable svc : Services World.

(** X7. After the page loop has gone through all pages, the counters are
    the counts of what the store calls came back with: [success] and
    [skipped] count the results with that status, [errors] counts the calls
    that raised, the results without a status and the "success" results
    without [chunks_stored], and [total_chunks] is the sum of the
    [chunks_stored] of the "success" results.  Each counted error has its
    own error log record. *)
Theorem counters_match_the_trace :
  forall database force all_pages sync_results st sync_results' st' delta,
    sync_pages svc database force sync_results all_pages st = (Val sync_results', st') ->
    trace st' = (trace st ++ delta)%list ->
    success sync_results'
      = success sync_results + count_stores (status_is "success") delta /\
    skipped sync_results'
      = skipped sync_results + count_stores (status_is "skipped") delta /\
    errors sync_results'
      = errors sync_results + count_stores ends_in_handler delta /\
    total_chunks sync_results' = total_chunks sync_results + chunks_in delta /\
    error_logs delta = count_stores ends_in_handler delta.
Proof.
  intros database force all_pages sync_results st sync_results' st' delta H T.
  apply sync_pages_run in H.
  destruct H as [d [T' [_ [_ [_ [Hlogs [_ [_ [_ [Hs [Hk [He Ht]]]]]]]]]]]].
  rewrite T' in T. apply app_inv_head in T. subst d. auto.
Qed.

(** X8. The page loop lists the blocks of the pages and submits them to the
    store in the order they were fetched, never skipping one and never
    coming back to one: at any point the store has been called for a prefix
    of the pages, and for all of them once the loop returns.  Each store
    call is made under the page's own id, for the database being synced,
    with the given [force_update], and with the page's id and properties as
    the source returned them. *)
Theorem pages_are_stored_once_in_order :
  forall database force all_pages sync_results st r st' delta,
    sync_pages svc database force sync_results all_pages st = (r, st') ->
    trace st' = (trace st ++ delta)%list ->
    Forall (store_call_ok database force) delta /\
    (exists n, stored_ids delta = map id (firstn n all_pages)) /\
    (forall sync_results',
        r = Val sync_results' ->
        stored_ids delta = map id all_pages /\
        listed_ids delta = map id all_pages /\
        map metadata (stored_pages delta) = map metadata all_pages).
Proof.
  intros database force all_pages sync_results st r st' delta H T.
  apply sync_pages_run in H. destruct H as [d [T' [Hok [_ [_ [_ Hr]]]]]].
  rewrite T' in T. apply app_inv_head in T. subst d.
  split; [assumption|]. split.
  - destruct r as [sr|e|]; [| |contradiction].
    + destruct Hr as [_ [Hi _]]. exists (length all_pages).
      rewrite firstn_all. exact Hi.
    + destruct Hr as [done [page [rest [-> [Hi _]]]]]. exists (length done).
      rewrite firstn_app, firstn_all, Nat.sub_diag. simpl. rewrite app_nil_r. exact Hi.
  - intros sr ->. destruct Hr as [Hm [Hi [Hl _]]]. auto.
Qed.

(** X9. The content a page is stored with is the extraction, block by
    block and in order, of the blocks listed for that page just before. *)
Theorem stored_content_is_the_extracted_blocks :
  forall database force all_pages sync_results st r st' delta,
    sync_pages svc database force sync_results all_pages st = (r, st') ->
    trace st' = (trace st ++ delta)%list ->
    forall listed, content_follows_blocks svc listed delta.
Proof.
  intros database force all_pages sync_results st r st' delta H T.
  apply sync_pages_run in H. destruct H as [d [T' [_ [_ [Hc _]]]]].
  rewrite T' in T. apply app_inv_head in T. subst d. exact Hc.
Qed.

(** X10. Extracting the content of a block list succeeds exactly when every
    block extracts, and then gives one content per block, in order;
    otherwise it fails with the exception of the first block that fails. *)
Theorem extract_blocks_stops_at_first_failure :
  forall blocks,
    match extract_blocks svc blocks with
    | inr pageContent => map (extract_block_content svc) blocks = map inr pageContent
    | inl e =>
        exists before block after,
          blocks = (before ++ block :: after)%list /\
          extract_block_content svc block = inl e /\
          exists contents, map (extract_block_content svc) before = map inr contents
    end.
Proof.
  induction blocks as [|block rest IH]; simpl; [reflexivity|].
  destruct (extract_block_content svc block) as [e|c] eqn:Hb.
  - exists [], block, rest. repeat split; auto. exists []. reflexivity.
  - destruct (extract_blocks svc rest) as [e|cs].
    + destruct IH as [before [block' [after [-> [Hf [contents Hm]]]]]].
      exists (block :: before), block', after. repeat split; auto.
      exists (c :: contents). simpl. rewrite Hb, Hm. reflexivity.
    + simpl. rewrite IH. reflexivity.
Qed.

(** X11. Once the blocks of a page are listed and extracted, nothing the
    store call does ends the loop: whether it returns a result of any shape
    or raises, the loop goes on with the next page.  A call that raised, a
    result without a status and a "success" result without [chunks_stored]
    are logged for the page and add one to [errors]; the other counters
    move by the status of the result alone. *)
Theorem store_outcome_never_ends_the_loop :
  forall database force sync_results page rest st blocks w1 pageContent reply w2,
    blocks_children_list svc (id page) (world st) = (inr blocks, w1) ->
    extract_blocks svc (get_default (block_results blocks) []) = inr pageContent ->
    store_notion_page svc (id page) (set_content page pageContent) database force w1
      = (reply, w2) ->
    exists sync_results',
      sync_pages svc database force sync_results (page :: rest) st =
      sync_pages svc database force sync_results' rest
        (mkState w2
           (trace st ++
            iteration_events database force page blocks pageContent reply)%list) /\
      success sync_results'
        = success sync_results + one_if (status_is "success" reply) /\
      skipped sync_results'
        = skipped sync_results + one_if (status_is "skipped" reply) /\
      errors sync_results'
        = errors sync_results + one_if (ends_in_handler reply) /\
      total_chunks sync_results' = total_chunks sync_results + chunks_of reply.
Proof.
  intros database force sync_results page rest st blocks w1 pageContent reply w2
    Hb Hx Hs.
  exists (counted reply sync_results). split; [|apply counted_spec].
  simpl. unfold bind at 1. unfold sync_page. unfold bind at 1, invoke. rewrite Hb.
  unfold bind at 1, lift. rewrite Hx. cbv beta. simpl world. simpl trace.
  simpl id at 1. rewrite Hs.
  assert (Hsnd : snd (match reply with
                      | inl e => (sync_results, Some e)
                      | inr result => tally result sync_results
                      end) = handled reply).
  { destruct reply; [reflexivity | apply tally_raised_independent]. }
  unfold counted, iteration_events. cbv zeta. rewrite Hsnd.
  destruct (match reply with
            | inl e => (sync_results, Some e)
            | inr result => tally result sync_results
            end) as [results1 raised].
  simpl in Hsnd. subst raised. simpl fst.
  destruct (handled reply) as [e|];
    unfold bind, emit, ret, logger_error; simpl; rewrite <- ?app_assoc; reflexivity.
Qed.

(** X12. A store result without a [status] entry counts as an error: the
    missing key is logged for the page, only the error counter moves, and
    the loop goes on with the pages that follow. *)
Theorem result_without_status_is_counted_as_error :
  forall database force sync_results page rest st blocks w1 pageContent result w2,
    blocks_children_list svc (id page) (world st) = (inr blocks, w1) ->
    extract_blocks svc (get_default (block_results blocks) []) = inr pageContent ->
    store_notion_page svc (id page) (set_content page pageContent) database force w1
      = (inr result, w2) ->
    status result = None ->
    sync_pages svc database force sync_results (page :: rest) st =
    sync_pages svc database force (incr_errors sync_results) rest
      (mkState w2
         (trace st ++
          [BlocksChildrenList (id page) (inr blocks);
           StoreNotionPage (id page) (set_content page pageContent) database force
             (inr result);
           Log ERROR ("Error syncing page " ++ id page ++ ": 'status'")])%list).
Proof.
  intros database force sync_results page rest st blocks w1 pageContent result w2
    Hb Hx Hs Hnone.
  simpl. unfold bind at 1. unfold sync_page. unfold bind at 1, invoke. rewrite Hb.
  unfold bind at 1, lift. rewrite Hx. cbv beta. simpl world. simpl trace.
  simpl id at 1. rewrite Hs. unfold tally. rewrite Hnone.
  unfold bind, emit, ret, logger_error. simpl. rewrite <- !app_assoc. reflexivity.
Qed.

End PageFacts.

(** ** A run that completes *)

Section CompletedRun.

Context {World : Type}.
Variable svc : Services World.

(** X13. If a background run logs its completion record, then every page
    the source returned was submitted to the store, once and in the order
    fetched; the number of pages logged before is the number fetched; and
    the counters printed in the completion record are the counts of the
    store replies of the run. *)
Theorem completed_run_stored_every_fetched_page :
  forall fuel database force limit st r st' delta summary,
    _sync_database_background svc fuel database force limit st = (r, st') ->
    trace st' = (trace st ++ delta)%list ->
    In (Log INFO ("Database sync completed: " ++ summary)) delta ->
    stored_ids delta = map id (fetched delta) /\
    map metadata (stored_pages delta) = map metadata (fetched delta) /\
    In (log_found (fetched delta)) delta /\
    exists sync_results,
      summary = repr_sync_results sync_results /\
      success sync_results = count_stores (status_is "success") delta /\
      skipped sync_results = count_stores (status_is "skipped") delta /\
      errors sync_results = count_stores ends_in_handler delta /\
      total_chunks sync_results = chunks_in delta.
Proof.
  intros fuel database force limit st r st' delta summary H T Hin.
  apply background_run_cases in H. destruct H as [rf [stf [Hf H]]].
  apply fetch_pages_run in Hf. destruct Hf as [df [Tf [Hq [_ Hrf]]]].
  simpl in Tf.
  assert (Hno : forall msg, ~ In (Log INFO msg) df).
  { intros msg. apply (queries_no_log _ _ _ _ Hq). }
  destruct rf as [all_pages|e|].
  - destruct Hrf as [Hpages _]. simpl in Hpages.
    destruct H as [rp [stp [Hp H]]].
    apply sync_pages_run in Hp.
    destruct Hp as [dp [Tp [_ [Hloop [_ [_ Hrp]]]]]]. simpl in Tp.
    destruct rp as [sync_results|e|]; [| |contradiction].
    + destruct H as [_ ->]. simpl in T. rewrite Tp, Tf in T.
      repeat rewrite <- app_assoc in T. apply app_inv_head in T.
      assert (Hd : delta =
                   ([log_starting database] ++ df ++ [log_found all_pages] ++ dp
                    ++ [log_completed sync_results])%list).
      { rewrite <- T. reflexivity. }
      clear T. subst delta.
      destruct (queries_store_nothing _ _ Hq) as [Hsi Hli].
      destruct (queries_count_nothing _ _ Hq) as [Hsp [Hch Hcs]].
      pose proof (page_loop_fetches_nothing _ Hloop) as Hfd.
      destruct Hrp as [Hm [Hi [_ [Hs [Hk [He Ht]]]]]].
      assert (Hfetched :
                fetched ([log_starting database] ++ df ++ [log_found all_pages] ++ dp
                         ++ [log_completed sync_results]) = all_pages).
      { rewrite !fetched_app, Hfd. unfold log_starting, log_found, log_completed.
        cbn [fetched app]. rewrite !app_nil_r. symmetry. exact Hpages. }
      assert (Hfound :
                In (log_found all_pages)
                   ([log_starting database] ++ df ++ [log_found all_pages] ++ dp
                    ++ [log_completed sync_results])).
      { apply in_or_app. right. apply in_or_app. right. left. reflexivity. }
      rewrite Hfetched.
      rewrite !stored_ids_app, !stored_pages_app, !count_stores_app,
        !chunks_in_app, Hsi, Hsp, Hch, !Hcs.
      unfold log_starting, log_found, log_completed.
      cbn [stored_ids stored_pages count_stores chunks_in app].
      rewrite !app_nil_r, Hi, Hm.
      split; [reflexivity|]. split; [reflexivity|].
      split; [exact Hfound|].
      exists sync_results.
      assert (Hsum : summary = repr_sync_results sync_results).
      { apply in_app_or in Hin. destruct Hin as [[Hin | []] | Hin]; [discriminate|].
        apply in_app_or in Hin. destruct Hin as [Hin | Hin]; [elim (Hno _ Hin)|].
        apply in_app_or in Hin. destruct Hin as [[Hin | []] | Hin]; [discriminate|].
        apply in_app_or in Hin. destruct Hin as [Hin | [Hin | []]].
        - elim (page_loop_no_info _ _ Hloop Hin).
        - unfold log_completed in Hin. cbn [append] in Hin. congruence. }
      simpl in Hs, Hk, He, Ht.
      repeat split; try assumption; lia.
    + exfalso. destruct H as [_ ->]. simpl in T. rewrite Tp, Tf in T.
      repeat rewrite <- app_assoc in T. apply app_inv_head in T. subst delta.
      apply in_app_or in Hin. destruct Hin as [[Hin | []] | Hin]; [discriminate|].
      apply in_app_or in Hin. destruct Hin as [Hin | Hin]; [elim (Hno _ Hin)|].
      apply in_app_or in Hin. destruct Hin as [[Hin | []] | Hin]; [discriminate|].
      apply in_app_or in Hin. destruct Hin as [Hin | [Hin | []]].
      * elim (page_loop_no_info _ _ Hloop Hin).
      * discriminate.
  - exfalso. destruct H as [_ ->]. simpl in T. rewrite Tf in T.
    repeat rewrite <- app_assoc in T. apply app_inv_head in T. subst delta.
    apply in_app_or in Hin. destruct Hin as [[Hin | []] | Hin]; [discriminate|].
    apply in_app_or in Hin. destruct Hin as [Hin | [Hin | []]];
      [elim (Hno _ Hin) | discriminate].
  - exfalso. destruct H as [_ ->]. rewrite Tf in T.
    repeat rewrite <- app_assoc in T. apply app_inv_head in T. subst delta.
    apply in_app_or in Hin. destruct Hin as [[Hin | []] | Hin]; [discriminate|].
    elim (Hno _ Hin).
Qed.

End CompletedRun.

(** * Further properties of the request handlers *)

Section HandlerFacts.

Context {World : Type}.
Variable svc : Services World.

(** X14. A RAG result without the [answer] key, or with it but without the
    [context_used] key, makes the chat request fail with HTTP 500 whose
    detail is the quoted name of the first missing key; the RAG service has
    been called once and the failure is logged. *)
Theorem chat_missing_key_is_500 :
  forall question st a w key,
    answer_question svc question (world st) = (inr a, w) ->
    missing_key a = Some key ->
    chat_with_knowledge_base svc question st =
      (Raise (HTTPException 500 ("'" ++ key ++ "'")),
       mkState w
         (trace st ++
          [AnswerQuestion question (inr a);
           Log ERROR ("Error in chat: '" ++ key ++ "'")])%list).
Proof.
  intros question st a w key Hq Hkey.
  unfold chat_with_knowledge_base. run. rewrite Hq. simpl.
  unfold missing_key in Hkey.
  destruct (answer a); simpl.
  - destruct (context_used a); [discriminate|]. inversion Hkey; subst. simpl.
    rewrite <- app_assoc. reflexivity.
  - inversion Hkey; subst. simpl. rewrite <- app_assoc. reflexivity.
Qed.

(** X15. Whatever the RAG service does, a chat request calls it exactly
    once, with the question as given, calls nothing else, and either returns
    a response or fails with HTTP 500: no other status and no other
    exception leaves the handler. *)
Theorem chat_fails_only_with_500 :
  forall question st r st' delta,
    chat_with_knowledge_base svc question st = (r, st') ->
    trace st' = (trace st ++ delta)%list ->
    questions_asked delta = [question] /\
    Forall chat_event delta /\
    ((exists response, r = Val response) \/
     (exists detail, r = Raise (HTTPException 500 detail))).
Proof.
  intros question st r st' delta H T.
  unfold chat_with_knowledge_base in H. run.
  destruct (answer_question svc question (world st)) as [[e|a] w]; simpl in H.
  - inversion H; subst. same_trace T. subst delta.
    repeat split; [repeat constructor | eauto].
  - destruct (answer a); simpl in H;
      [destruct (context_used a); simpl in H;
         [destruct (sources a) as [[|? ?]|]; simpl in H|]|];
      inversion H; subst; same_trace T; subst delta;
      (repeat split; [repeat constructor | eauto]).
Qed.

Lemma collect_page_urls_bounded :
  forall srcs,
    (length (collect_page_urls srcs) <= length srcs)%nat /\
    Forall (fun url => url <> EmptyString) (collect_page_urls srcs).
Proof.
  induction srcs as [|source srcs [IH1 IH2]]; simpl; [auto|].
  destruct (page_url source) as [[|c u]|]; simpl; split; auto; try lia.
  constructor; [discriminate | assumption].
Qed.

(** X16. In every chat response, [source_urls] is present exactly when
    [sources_count] is positive, it never has more entries than
    [sources_count], and none of its entries is empty. *)
Theorem chat_source_urls_bounded_by_count :
  forall question st response st',
    chat_with_knowledge_base svc question st = (Val response, st') ->
    0 <= sources_count response /\
    (source_urls response = None <-> sources_count response = 0) /\
    forall urls,
      source_urls response = Some urls ->
      len urls <= sources_count response /\
      Forall (fun url => url <> EmptyString) urls.
Proof.
  intros question st response st' H. apply chat_returns_inv in H.
  destruct H as [a [w [answer_text [used [_ [_ [_ [_ ->]]]]]]]]. simpl.
  split; [apply len_nonneg|].
  destruct (sources a) as [[|source srcs]|]; simpl.
  - split; [split; reflexivity | discriminate].
  - split; [split; [discriminate | unfold len; simpl; lia]|].
    intros urls Hurls. inversion Hurls; subst.
    destruct (collect_page_urls_bounded (source :: srcs)) as [Hlen Hne].
    split; [unfold len; apply Nat2Z.inj_le; exact Hlen | exact Hne].
  - split; [split; reflexivity | discriminate].
Qed.

(** X17. The stats endpoint calls the store's statistics once and returns
    the object it got, unchanged and without logging; if the call raises,
    that exception, and nothing else, is logged and becomes the HTTP 500. *)
Theorem stats_are_passed_through :
  forall st r st' delta,
    get_vector_db_stats svc st = (r, st') ->
    trace st' = (trace st ++ delta)%list ->
    exists reply,
      get_stats svc (world st) = (reply, world st') /\
      match reply with
      | inr stats => r = Val stats /\ delta = [GetStats (inr stats)]
      | inl e =>
          r = Raise (HTTPException 500 (str e)) /\
          delta = [GetStats (inl e); Log ERROR ("Error getting stats: " ++ str e)]
      end.
Proof.
  intros st r st' delta H T. unfold get_vector_db_stats in H. run.
  destruct (get_stats svc (world st)) as [[e|stats] w]; simpl in H;
    inversion H; subst; same_trace T; subst delta.
  - exists (inl e). simpl. auto.
  - exists (inr stats). simpl. auto.
Qed.

(** X18. A health check asks for the statistics first and probes the
    embedding, with the text "test", only if the statistics came back; it
    calls nothing else, and it ends either with the payload, which names
    the store's embedding model and the RAG service's model, or with HTTP
    503 whose detail starts with "Service unavailable: ". *)
Theorem health_check_probes_after_stats :
  forall st r st' delta,
    vector_health_check svc st = (r, st') ->
    trace st' = (trace st ++ delta)%list ->
    Forall health_event delta /\
    (exists reply,
        hd_error delta = Some (GetStats reply) /\
        match reply with
        | inr _ => length (probes delta) = 1%nat
        | inl _ => probes delta = []
        end) /\
    ((exists payload,
         r = Val payload /\
         health_vector_db payload = "connected" /\
         embedding_model payload = embedding_model_name svc /\
         google_ai_model payload = model_name svc) \/
     (exists e, r = Raise (HTTPException 503 ("Service unavailable: " ++ str e)))).
Proof.
  intros st r st' delta H T. unfold vector_health_check in H. run.
  destruct (get_stats svc (world st)) as [[e|stats] w]; simpl in H.
  - inversion H; subst. same_trace T. subst delta.
    split; [repeat constructor|]. split; [eexists; split; reflexivity|]. eauto.
  - destruct (generate_embedding svc "test" w) as [[e|emb] w']; simpl in H;
      inversion H; subst; same_trace T; subst delta;
      (split; [repeat constructor|]); (split; [eexists; split; reflexivity|]).
    + eauto.
    + left. eexists. repeat split.
Qed.

End HandlerFacts.

(** * The configured database ids *)

Lemma split_cons_shape :
  forall sep s, exists word words, split sep s = word :: words.
Proof.
  intros sep s. destruct (split sep s) as [|word words] eqn:E.
  - elim (split_not_nil _ _ E).
  - eauto.
Qed.

Lemma join_split :
  forall sep s, join sep (split sep s) = s.
Proof.
  intros sep. induction s as [|c s IH]; [reflexivity|]. simpl.
  destruct (split_cons_shape sep s) as [word [words E]]. rewrite E in *.
  destruct (Ascii.eqb c sep) eqn:Hc.
  - apply Ascii.eqb_eq in Hc. subst c.
    change (join sep (EmptyString :: word :: words))
      with (String sep (join sep (word :: words))).
    rewrite IH. reflexivity.
  - destruct words as [|word' words]; simpl in *; rewrite IH; reflexivity.
Qed.

Lemma split_counts_separators :
  forall sep s,
    length (split sep s) = S (occurrences sep s) /\
    Forall (fun word => occurrences sep word = 0%nat) (split sep s).
Proof.
  intros sep. induction s as [|c s [IHl IHf]]; simpl.
  - split; [reflexivity | repeat constructor].
  - destruct (Ascii.eqb c sep) eqn:Hc; simpl.
    + split; [rewrite IHl; reflexivity | constructor; [reflexivity | assumption]].
    + destruct (split sep s) as [|word words]; simpl in *; [discriminate|].
      split; [assumption|]. inversion IHf; subst.
      constructor; [simpl; rewrite Hc; assumption | assumption].
Qed.

(** X19. When the variable is set and not empty, joining the configured
    ids with commas gives the variable back: no character is lost, empty
    segments are kept as empty ids, there is one id more than there are
    commas, and no id contains a comma. *)
Theorem notion_database_ids_read_back :
  forall s,
    s <> EmptyString ->
    join "," (notion_database_ids (Some s)) = s /\
    length (notion_database_ids (Some s)) = S (occurrences "," s) /\
    Forall no_comma (notion_database_ids (Some s)).
Proof.
  intros s Hs. unfold notion_database_ids.
  destruct s as [|c s]; [congruence|]. cbn [truthy_str get_default].
  split; [apply join_split | apply split_counts_separators].
Qed.

Lemma split_without_separator :
  forall sep word, occurrences sep word = 0%nat -> split sep word = [word].
Proof.
  intros sep. induction word as [|c word IH]; intros H; [reflexivity|].
  simpl in *. destruct (Ascii.eqb c sep); [discriminate|].
  rewrite IH; [reflexivity | assumption].
Qed.

Lemma split_append_separator :
  forall sep word s,
    occurrences sep word = 0%nat ->
    split sep (word ++ String sep s) = word :: split sep s.
Proof.
  intros sep. induction word as [|c word IH]; intros s H; simpl in *.
  - rewrite Ascii.eqb_refl. reflexivity.
  - destruct (Ascii.eqb c sep); [discriminate|].
    rewrite IH; [reflexivity | assumption].
Qed.

Lemma split_join :
  forall sep words,
    words <> [] ->
    Forall (fun word => occurrences sep word = 0%nat) words ->
    split sep (join sep words) = words.
Proof.
  intros sep. induction words as [|word words IH]; intros Hne Hall; [congruence|].
  inversion Hall; subst.
  destruct words as [|word' words].
  - simpl. apply split_without_separator. assumption.
  - change (join sep (word :: word' :: words))
      with (word ++ String sep (join sep (word' :: words))).
    rewrite split_append_separator; [|assumption].
    rewrite IH; [reflexivity | discriminate | assumption].
Qed.

(** X20. Conversely, a non-empty list of ids without commas, written to
    the variable joined by commas, is read back as that same list, provided
    the joined text is not empty (the list is not the single empty id). *)
Theorem notion_database_ids_of_joined :
  forall ids,
    ids <> [] ->
    Forall no_comma ids ->
    join "," ids <> EmptyString ->
    notion_database_ids (Some (join "," ids)) = ids.
Proof.
  intros ids Hne Hall Hjoin. unfold notion_database_ids.
  destruct (join "," ids) as [|c s] eqn:E; [congruence|].
  cbn [truthy_str get_default]. rewrite <- E. apply split_join; assumption.
Qed.

(** ** The loop against the in-memory source, without a limit *)

#[local] Opaque firstn skipn.

(** X21. Without a page limit the loop fetches the whole database: against
    a source that serves a list of pages in order, it returns exactly those
    pages, in order, as soon as it is given more iterations than there are
    pages. *)
Theorem Fake_fetches_everything_without_limit :
  forall script database fuel all_pages more cursor pages_processed pending evs,
    (more = true -> (length pending < fuel)%nat) ->
    (more = false -> pending = []) ->
    fst (fetch_pages (Fake.services script) fuel database None all_pages more
           cursor pages_processed (mkState pending evs))
    = Val (all_pages ++ pending)%list.
Proof.
  intros script database.
  induction fuel as [|fuel IH];
    intros all_pages more cursor processed pending evs Hfuel Hmore;
    simpl; destruct more; simpl;
    try (rewrite (Hmore eq_refl), app_nil_r; reflexivity).
  - specialize (Hfuel eq_refl). lia.
  - specialize (Hfuel eq_refl).
    unfold bind at 1, invoke. simpl. unfold Fake.query. simpl.
    match goal with
    | |- context [skipn ?k pending] => set (n := k) in *
    end.
    assert (Hn : (1 <= n)%nat) by (unfold n; lia).
    clearbody n.
    rewrite IH.
    + rewrite <- app_assoc, firstn_skipn. reflexivity.
    + intros Hm. destruct (skipn n pending) as [|p rest] eqn:E; [discriminate|].
      assert (Hlen : length (skipn n pending) = (length pending - n)%nat)
        by apply length_skipn.
      rewrite E in *. simpl in *. lia.
    + intros Hm. destruct (skipn n pending); [reflexivity | discriminate].
Qed.

#[local] Transparent firstn skipn.

(** * Runs on concrete inputs *)

Lemma background_sync_never_raises_witness :
  fst (_sync_database_background (Fake.services Fake.healthy) 2 "db" true (Some 2)
         (Fake.start (Fake.database 3)))
  = Val tt.
Proof.
  refine (proj2 (proj2 (proj2
            (background_sync_never_raises (Fake.services Fake.healthy) 2 "db" true
               (Some 2) (Fake.start (Fake.database 3)))))
            (Fake_paginates Fake.healthy) 2 eq_refl _).
  simpl. lia.
Defined.

Lemma failed_query_discards_the_batch_witness :
  let run := _sync_database_background flaky_services 5 "db" true None (mkState 0%nat []) in
  fst run = Val tt /\
  stored_ids (trace (snd run)) = [] /\
  listed_ids (trace (snd run)) = [] /\
  last (trace (snd run)) Yield = log_aborted (Exception "timeout").
Proof.
  intros run.
  refine (failed_query_discards_the_batch flaky_services 5 "db" true None
            (mkState 0%nat []) (fst run) (snd run) (trace (snd run))
            {| database_id := "db"; page_size := 100; start_cursor := Some "cursor" |}
            (Exception "timeout") (surjective_pairing _) eq_refl _).
  vm_compute. right. right. left. reflexivity.
Defined.

Lemma fetch_pages_queries_within_bounds_witness :
  let run := fetch_pages (Fake.services Fake.healthy) 3 "db" (Some 3) [] true None 0
               (Fake.start (Fake.database 5)) in
  Forall (is_query_to "db") (trace (snd run)) /\ cursors_ok None (trace (snd run)).
Proof.
  intros run.
  pose proof (fetch_pages_queries_within_bounds (Fake.services Fake.healthy) 3 "db"
                (Some 3) [] true None 0 (Fake.start (Fake.database 5))
                (fst run) (snd run) (trace (snd run))
                (surjective_pairing _) eq_refl) as [Hq [Hc _]].
  split; assumption.
Defined.

Lemma fetch_pages_keeps_every_page_witness :
  let st := Fake.start (Fake.database 5) in
  let run := fetch_pages (Fake.services Fake.healthy) 3 "db" (Some 3) [] true None 0 st in
  firstn 3 (Fake.database 5) = ([] ++ fetched (trace (snd run)))%list.
Proof.
  intros st run.
  refine (proj1 (fetch_pages_keeps_every_page (Fake.services Fake.healthy) 3 "db"
                   (Some 3) [] true None 0 st (firstn 3 (Fake.database 5))
                   (snd run) (trace (snd run)) _ eq_refl)).
  vm_compute. reflexivity.
Defined.

Lemma fetch_without_limit_asks_for_100_witness :
  let run := fetch_pages (Fake.services Fake.healthy) 3 "db" None [] true None 0
               (Fake.start (Fake.database 5)) in
  Forall (asks_for 100) (trace (snd run)).
Proof.
  intros run.
  exact (proj1 (fetch_without_limit_asks_for_100 (Fake.services Fake.healthy) 3 "db"
                  [] true None 0 (Fake.start (Fake.database 5))
                  (fst run) (snd run) (trace (snd run))
                  (surjective_pairing _) eq_refl)).
Defined.

Lemma stalled_services_stall : stalls stalled_services.
Proof.
  intros query_params w. eexists. eexists. split; [reflexivity|]. split; reflexivity.
Qed.

Lemma sync_never_completes_on_a_stalled_source_witness :
  fst (_sync_database_background stalled_services 50 "db" true (Some 5) (mkState tt []))
  = OutOfFuel.
Proof.
  apply (sync_never_completes_on_a_stalled_source stalled_services stalled_services_stall).
  simpl. lia.
Defined.

Lemma Fake_fetches_everything_without_limit_witness :
  fst (fetch_pages (Fake.services Fake.healthy) 6 "db" None [] true None 0
         (mkState (Fake.database 5) []))
  = Val ([] ++ Fake.database 5)%list.
Proof.
  apply Fake_fetches_everything_without_limit.
  - intros _. simpl. lia.
  - discriminate.
Defined.

Lemma counters_match_the_trace_witness :
  let final := {| success := 1; skipped := 1; errors := 0; total_chunks := 3 |} in
  let run := sync_pages second_skipped "db" true sync_results_init (Fake.database 2)
               (Fake.start []) in
  success final
    = success sync_results_init + count_stores (status_is "success") (trace (snd run)) /\
  skipped final
    = skipped sync_results_init + count_stores (status_is "skipped") (trace (snd run)) /\
  errors final
    = errors sync_results_init + count_stores ends_in_handler (trace (snd run)) /\
  total_chunks final = total_chunks sync_results_init + chunks_in (trace (snd run)) /\
  error_logs (trace (snd run)) = count_stores ends_in_handler (trace (snd run)).
Proof.
  intros final run.
  refine (counters_match_the_trace second_skipped "db" true (Fake.database 2)
            sync_results_init (Fake.start []) final (snd run) (trace (snd run))
            _ eq_refl).
  vm_compute. reflexivity.
Defined.

Lemma pages_are_stored_once_in_order_witness :
  let run := sync_pages second_skipped "db" true sync_results_init (Fake.database 2)
               (Fake.start []) in
  Forall (store_call_ok "db" true) (trace (snd run)) /\
  exists n, stored_ids (trace (snd run)) = map id (firstn n (Fake.database 2)).
Proof.
  intros run.
  pose proof (pages_are_stored_once_in_order second_skipped "db" true (Fake.database 2)
                sync_results_init (Fake.start []) (fst run) (snd run) (trace (snd run))
                (surjective_pairing _) eq_refl) as [Hok [Hprefix _]].
  split; assumption.
Defined.

Lemma stored_content_is_the_extracted_blocks_witness :
  let run := sync_pages second_skipped "db" true sync_results_init (Fake.database 2)
               (Fake.start []) in
  content_follows_blocks second_skipped [] (trace (snd run)).
Proof.
  intros run.
  exact (stored_content_is_the_extracted_blocks second_skipped "db" true
           (Fake.database 2) sync_results_init (Fake.start [])
           (fst run) (snd run) (trace (snd run)) (surjective_pairing _) eq_refl []).
Defined.

Lemma store_outcome_never_ends_the_loop_witness :
  let page := Fake.page "1" in
  let blocks := {| block_results := Some ["paragraph"] |} in
  let reply : Exn + StoreResult := inl (Exception "write failed") in
  exists sync_results',
    sync_pages first_write_fails "db" true sync_results_init [page; Fake.page "2"]
      (Fake.start []) =
    sync_pages first_write_fails "db" true sync_results' [Fake.page "2"]
      (mkState []
         ([] ++ iteration_events "db" true page blocks ["paragraph"] reply)%list) /\
    success sync_results' = success sync_results_init + one_if (status_is "success" reply) /\
    skipped sync_results' = skipped sync_results_init + one_if (status_is "skipped" reply) /\
    errors sync_results' = errors sync_results_init + one_if (ends_in_handler reply) /\
    total_chunks sync_results' = total_chunks sync_results_init + chunks_of reply.
Proof.
  intros page blocks reply.
  exact (store_outcome_never_ends_the_loop first_write_fails "db" true
           sync_results_init page [Fake.page "2"] (Fake.start []) blocks []
           ["paragraph"] reply [] eq_refl eq_refl eq_refl).
Defined.

Lemma result_without_status_is_counted_as_error_witness :
  let page := Fake.page "1" in
  let blocks := {| block_results := Some ["paragraph"] |} in
  let result := {| status := None; chunks_stored := Some 3 |} in
  sync_pages store_without_status "db" true sync_results_init [page] (Fake.start []) =
  sync_pages store_without_status "db" true (incr_errors sync_results_init) []
    (mkState []
       ([] ++
        [BlocksChildrenList "1" (inr blocks);
         StoreNotionPage "1" (set_content page ["paragraph"]) "db" true (inr result);
         Log ERROR ("Error syncing page " ++ "1" ++ ": 'status'")])).
Proof.
  intros page blocks result.
  exact (result_without_status_is_counted_as_error store_without_status "db" true
           sync_results_init page [] (Fake.start []) blocks [] ["paragraph"] result []
           eq_refl eq_refl eq_refl eq_refl).
Defined.

Lemma completed_run_stored_every_fetched_page_witness :
  let run := _sync_database_background second_skipped 2 "db" true (Some 2)
               (Fake.start (Fake.database 3)) in
  stored_ids (trace (snd run)) = map id (fetched (trace (snd run))) /\
  In (log_found (fetched (trace (snd run)))) (trace (snd run)).
Proof.
  intros run.
  pose proof (completed_run_stored_every_fetched_page second_skipped 2 "db" true (Some 2)
                (Fake.start (Fake.database 3)) (fst run) (snd run) (trace (snd run))
                "{'success': 1, 'skipped': 1, 'errors': 0, 'total_chunks': 3}"
                (surjective_pairing _) eq_refl) as H.
  destruct H as [Hids [_ [Hfound _]]]; [|split; assumption].
  vm_compute. repeat (first [left; reflexivity | right]).
Defined.

Lemma chat_missing_key_is_500_witness :
  fst (chat_with_knowledge_base rag_without_context_flag "why?" (Fake.start []))
  = Raise (HTTPException 500 "'context_used'").
Proof.
  rewrite (chat_missing_key_is_500 rag_without_context_flag "why?" (Fake.start [])
             _ _ "context_used" eq_refl eq_refl).
  reflexivity.
Defined.

Lemma chat_fails_only_with_500_witness :
  let run := chat_with_knowledge_base rag_without_context_flag "why?" (Fake.start []) in
  questions_asked (trace (snd run)) = ["why?"] /\ Forall chat_event (trace (snd run)).
Proof.
  intros run.
  pose proof (chat_fails_only_with_500 rag_without_context_flag "why?" (Fake.start [])
                (fst run) (snd run) (trace (snd run)) (surjective_pairing _) eq_refl)
    as [Hq [Hev _]].
  split; assumption.
Defined.

Lemma chat_source_urls_bounded_by_count_witness :
  let response :=
    {| chat_question := "why?"; chat_answer := "42"; chat_context_used := true;
       sources_count := 2; model := Some "gemini";
       source_urls := Some ["https://notion.so/p1"] |} in
  0 <= sources_count response /\
  (source_urls response = None <-> sources_count response = 0) /\
  forall urls,
    source_urls response = Some urls ->
    len urls <= sources_count response /\
    Forall (fun url => url <> EmptyString) urls.
Proof.
  intros response.
  refine (chat_source_urls_bounded_by_count rag_with_two_sources "why?" (Fake.start [])
            response _ _).
  reflexivity.
Defined.

Lemma stats_are_passed_through_witness :
  let svc := Fake.services Fake.healthy in
  let run := get_vector_db_stats svc (Fake.start []) in
  exists reply,
    get_stats svc (world (Fake.start [])) = (reply, world (snd run)) /\
    match reply with
    | inr stats => fst run = Val stats /\ trace (snd run) = [GetStats (inr stats)]
    | inl e =>
        fst run = Raise (HTTPException 500 (str e)) /\
        trace (snd run) = [GetStats (inl e); Log ERROR ("Error getting stats: " ++ str e)]
    end.
Proof.
  intros svc run.
  exact (stats_are_passed_through svc (Fake.start []) (fst run) (snd run)
           (trace (snd run)) (surjective_pairing _) eq_refl).
Defined.

Lemma health_check_probes_after_stats_witness :
  let svc := Fake.services (Fake.with_stats (inl (Exception "db down")) Fake.healthy) in
  let run := vector_health_check svc (Fake.start []) in
  Forall health_event (trace (snd run)) /\
  exists reply,
    hd_error (trace (snd run)) = Some (GetStats reply) /\
    match reply with
    | inr _ => length (probes (trace (snd run))) = 1%nat
    | inl _ => probes (trace (snd run)) = []
    end.
Proof.
  intros svc run.
  pose proof (health_check_probes_after_stats svc (Fake.start [])
                (fst run) (snd run) (trace (snd run)) (surjective_pairing _) eq_refl)
    as [Hev [Hprobe _]].
  split; assumption.
Defined.

Lemma notion_database_ids_read_back_witness :
  join "," (notion_database_ids (Some "a,,b,")) = "a,,b," /\
  length (notion_database_ids (Some "a,,b,")) = S (occurrences "," "a,,b,") /\
  Forall no_comma (notion_database_ids (Some "a,,b,")).
Proof.
  apply notion_database_ids_read_back. discriminate.
Defined.

Lemma notion_database_ids_of_joined_witness :
  notion_database_ids (Some (join "," ["db-one"; "db-two"])) = ["db-one"; "db-two"].
Proof.
  apply notion_database_ids_of_joined.
  - discriminate.
  - repeat constructor.
  - discriminate.
Defined.
